(** * vadpk: voice-activated recorder scripts

    A shallow embedding of the three capture scripts of the repository
    ([test.py], [test2.py], [testson.py]) and the properties of their
    segmentation loops.

    Conventions of the embedding.
    - An audio block is the [bytes] object the stream callback puts on the
      queue: a [list byte].
    - [time.time()] returns seconds as a float; the readings are modelled as
      exact rationals ([Q]) supplied by the environment with each block.
    - The recognizer ([KaldiRecognizer]) is an external stateful object; what
      [AcceptWaveform] and [Result] return for a block is supplied by the
      environment with that block.
    - Files written through the [wave] module are records held in a finite
      map from file names to contents; which file a path opens, and whether
      there is room for what is written, is the operating system's answer,
      supplied by the environment. *)

From Stdlib Require Import ZArith QArith Qround Lia.
From Stdlib Require Import Strings.String Strings.Ascii Init.Byte.
From stdpp Require Import base list strings gmap.

Local Open Scope Z_scope.

(** ** Python values shared by the three scripts *)

(** The exceptions that the loops can raise in the model. *)
Inductive exn : Type :=
| ValueError
| TypeError
| FileNotFoundError
| OSError      (* an [OSError], or the subclass of it that the system reports *)
| WaveError    (* [wave.Error] *)
| StructError. (* [struct.error] *)

(** Outcome of a call that either returns or raises. *)
Inductive result (A : Type) : Type :=
| Ok (a : A)
| Raise (e : exn).
Arguments Ok {A} a.
Arguments Raise {A} e.

Definition rbind {A B} (m : result A) (f : A -> result B) : result B :=
  match m with
  | Ok a => f a
  | Raise e => Raise e
  end.

Notation "'let*' x ':=' m 'in' k" := (rbind m (fun x => k))
  (at level 10, x name, m at level 100, k at level 200, only parsing).

(** One block of audio as delivered by the callback: [bytes(indata)]. *)
Definition frame : Type := list byte.

(** ** Rational helpers for float-valued expressions *)

Definition Qlt_bool (x y : Q) : bool :=
  (Qnum x * QDen y <? Qnum y * QDen x).

(** Python's [int(x)] on a float: truncation toward zero. *)
Definition py_int (x : Q) : Z := Z.quot (Qnum x) (QDen x).

(** Python's [min(a, b)]: [b] when [b < a], otherwise [a]. *)
Definition py_min (a b : Q) : Q := if Qlt_bool b a then b else a.

(** Truth value of a float used as a condition: false only for zero. *)
Definition float_truthy (x : Q) : bool := negb (Qnum x =? 0).

(** ** List helpers for Python list operations *)

(** [l[:k]] for an integer [k] of either sign: a negative [k] counts from the
    end, and both ends are clamped to the list. *)
Definition py_slice_to {A} (l : list A) (k : Z) : list A :=
  if k <? 0
  then firstn (Z.to_nat (Z.max 0 (Z.of_nat (length l) + k))) l
  else firstn (Z.to_nat k) l.

(** [l.pop(0)] seen as the list that remains. *)
Definition pop0 {A} (l : list A) : list A := tail l.

(** [b''.join(data)] *)
Definition join_bytes (data : list frame) : list byte := concat data.

(** ** numpy: the amplitude detector of testson.py *)

(** Two bytes, little endian, read as a signed 16-bit sample. *)
Definition int16_of_le (lo hi : byte) : Z :=
  let u := Z.of_N (Byte.to_N lo) + 256 * Z.of_N (Byte.to_N hi) in
  if 32768 <=? u then u - 65536 else u.

(** [np.frombuffer(data, dtype=np.int16)]: raises [ValueError] when the
    buffer size is not a multiple of the element size. *)
Fixpoint frombuffer_int16 (data : list byte) : result (list Z) :=
  match data with
  | [] => Ok []
  | [_] => Raise ValueError
  | lo :: hi :: rest =>
      let* tl := frombuffer_int16 rest in Ok (int16_of_le lo hi :: tl)
  end.

(** Wrap-around of a value stored in an int16 array. *)
Definition wrap_int16 (z : Z) : Z := (z + 32768) mod 65536 - 32768.

(** [np.abs] on an int16 array keeps the dtype: the result is stored back in
    16 bits. *)
Definition np_abs_int16 (a : list Z) : list Z :=
  map (fun x => wrap_int16 (Z.abs x)) a.

Definition sumZ (a : list Z) : Z := fold_right Z.add 0 a.

(** [a.mean()] on an integer array: the exact sum divided by the number of
    elements; [None] stands for the [nan] of an empty array.  (The float
    rounding of the quotient does not change its comparison with an integer
    threshold for a block of any size the stream can deliver.) *)
Definition np_mean (a : list Z) : option Q :=
  match a with
  | [] => None
  | _ => Some (sumZ a # Pos.of_nat (length a))
  end.

(** [m > threshold]: every comparison with [nan] is false. *)
Definition gt_threshold (m : option Q) (threshold : Z) : bool :=
  match m with
  | None => false
  | Some q => Qlt_bool (inject_Z threshold) q
  end.

(** [is_speech(data, threshold=500)] *)
Definition is_speech_thr (data : frame) (threshold : Z) : result bool :=
  let* samples := frombuffer_int16 data in
  Ok (gt_threshold (np_mean (np_abs_int16 samples)) threshold).

Definition is_speech (data : frame) : result bool := is_speech_thr data 500.

(** ** The recognizer's answer for one block *)

Definition dq : string := String (ascii_of_nat 34) EmptyString.

(** The literal ['"text" : ""'] searched for in [rec.Result()]. *)
Definition empty_text_marker : string :=
  (dq ++ "text" ++ dq ++ " : " ++ dq ++ dq)%string.

(** [needle in hay] on Python strings. *)
Fixpoint str_in (needle hay : string) : bool :=
  String.prefix needle hay ||
  match hay with
  | EmptyString => false
  | String _ rest => str_in needle rest
  end.

(** What the recognizer says about a block: [accept] is the value of
    [rec.AcceptWaveform(data)], [rec_result] what [rec.Result()] returns when
    it is called. *)
Record rec_answer : Type := {
  accept : bool;
  rec_result : string
}.

(** ['"text" : ""' not in result] *)
Definition has_text (r : string) : bool := negb (str_in empty_text_marker r).

(** ** The sink: wave files *)

Record wav : Type := {
  nchannels : Z;
  sampwidth : Z;
  framerate : Z;
  wav_frames : list byte
}.

(** What the operating system makes of a path, and whether it has room for
    what is written, is not decided by the scripts.  [open_path p] is the
    file that the path [p] designates when the system lets the process open
    it (the name under which the file system holds it), [None] when the open
    fails with [OSError] or one of its subclasses (no such directory,
    permission denied, an empty name, ...); two paths that open to the same
    name are one file.  [has_room f d] tells whether the system stores the
    audio data [d] in the file [f]; when it does not, the write fails with
    [OSError] (disk full, quota, ...).  [stale_read old] is what a reader
    that had opened a file holding the frames [old] still obtains once
    another open has truncated that file: it depends on what had been
    buffered. *)
Class OS : Type := {
  open_path : string -> option string;
  has_room : string -> list byte -> bool;
  stale_read : list byte -> list byte
}.

(** The header of a wave file packs the channel count, the block size and
    the bits per sample in 16 bits each, the frame rate and the byte rate in
    32 bits each; [struct.pack] raises [struct.error] for a value that does
    not fit. *)
Definition header_fits (w : wav) : bool :=
  (nchannels w <=? 65535) &&
  (nchannels w * sampwidth w <=? 65535) &&
  (sampwidth w * 8 <=? 65535) &&
  (framerate w <=? 4294967295) &&
  (nchannels w * framerate w * sampwidth w <=? 4294967295).

(** The data length, and 36 more for the header, are packed in 32 bits. *)
Definition data_fits (d : list byte) : bool :=
  36 + Z.of_nat (length d) <=? 4294967295.

(** [write_wave(filename, data, samplerate)]: the file is opened in ['wb']
    mode, so what it held before is replaced; [setframerate] raises
    [wave.Error] for a rate that is not positive; [writeframes] packs the
    header, then writes. *)
Definition write_wave `{OS} (fs : gmap string wav) (filename : string)
    (data : list frame) (samplerate : Z) : result (gmap string wav) :=
  match open_path filename with
  | None => Raise OSError
  | Some f =>
      if samplerate <=? 0 then Raise WaveError
      else
        let w := {| nchannels := 1; sampwidth := 2; framerate := samplerate;
                    wav_frames := join_bytes data |} in
        if negb (header_fits w && data_fits (wav_frames w)) then Raise StructError
        else if negb (has_room f (wav_frames w)) then Raise OSError
        else Ok (<[f := w]> fs)
  end.

(** [create_wave_header(filename, samplerate)] of test2.py: a file with the
    header and no frame. *)
Definition create_wave_header `{OS} (fs : gmap string wav) (filename : string)
    (samplerate : Z) : result (gmap string wav) :=
  match open_path filename with
  | None => Raise OSError
  | Some f =>
      if samplerate <=? 0 then Raise WaveError
      else
        let w := {| nchannels := 1; sampwidth := 2; framerate := samplerate;
                    wav_frames := [] |} in
        if negb (header_fits w) then Raise StructError
        else if negb (has_room f []) then Raise OSError
        else Ok (<[f := w]> fs)
  end.

(** The copy loop of [append_wave]: [readframes(1024)] until it returns
    [b''], each chunk written to the destination. [chunk] is the number of
    bytes of 1024 frames; [fuel] bounds the number of iterations. *)
Fixpoint copy_frames (fuel : nat) (chunk : nat) (src : list byte) : list byte :=
  match fuel with
  | O => []
  | S fuel' =>
      let frames := firstn chunk src in
      match frames with
      | [] => []
      | _ => (frames ++ copy_frames fuel' chunk (skipn chunk src))%list
      end
  end.

(** [append_wave(temp_filename, final_filename)] of test2.py.  The temporary
    file is opened for reading: its header is read at once, and refused with
    [wave.Error] when it announces no channel or no sample width.  Then the
    destination is opened in ['wb'] mode, which empties it, and given the
    parameters of the temporary file: [setsampwidth] raises [wave.Error]
    above 4 bytes, [setframerate] for a rate that is not positive.  Then the
    frames of the temporary file are copied (the header is packed with the
    first chunk, the data length when the file is closed); when both paths
    are one file, the frames left to read are those the reader still obtains
    after the truncation. *)
Definition append_wave `{OS} (fs : gmap string wav)
    (temp_filename final_filename : string) : result (gmap string wav) :=
  match open_path temp_filename with
  | None => Raise OSError
  | Some t =>
      match fs !! t with
      | None => Raise FileNotFoundError
      | Some temp_wf =>
          if (nchannels temp_wf <? 1) || (sampwidth temp_wf <? 1)
          then Raise WaveError
          else
            match open_path final_filename with
            | None => Raise OSError
            | Some f =>
                if (4 <? sampwidth temp_wf) || (framerate temp_wf <=? 0)
                then Raise WaveError
                else
                  let opened := {| nchannels := nchannels temp_wf;
                                   sampwidth := sampwidth temp_wf;
                                   framerate := framerate temp_wf;
                                   wav_frames := [] |} in
                  let fs1 := <[f := opened]> fs in
                  let src := if String.eqb t f
                             then stale_read (wav_frames temp_wf)
                             else wav_frames temp_wf in
                  let chunk :=
                    Z.to_nat (1024 * nchannels temp_wf * sampwidth temp_wf) in
                  let copied := copy_frames (S (length src)) chunk src in
                  if negb (header_fits opened) then Raise StructError
                  else if negb (has_room f copied) then Raise OSError
                  else if negb (data_fits copied) then Raise StructError
                  else
                    Ok (<[f := {| nchannels := nchannels temp_wf;
                                  sampwidth := sampwidth temp_wf;
                                  framerate := framerate temp_wf;
                                  wav_frames := copied |}]> fs1)
            end
      end
  end.

(** The calls a script makes on the sink, in order. *)
Inductive sink_call : Type :=
| WriteWave (filename : string) (data : list frame) (samplerate : Z)
| AppendWave (temp_filename final_filename : string)
| CreateWaveHeader (filename : string) (samplerate : Z).

Definition do_call `{OS} (fs : gmap string wav) (c : sink_call)
    : result (gmap string wav) :=
  match c with
  | WriteWave f d r => write_wave fs f d r
  | AppendWave t f => append_wave fs t f
  | CreateWaveHeader f r => create_wave_header fs f r
  end.

(** The file system after a sequence of sink calls; the first call that
    raises ends the sequence. *)
Fixpoint do_calls `{OS} (fs : gmap string wav) (cs : list sink_call)
    : result (gmap string wav) :=
  match cs with
  | [] => Ok fs
  | c :: cs' => let* fs' := do_call fs c in do_calls fs' cs'
  end.

(** How a run of a script ends. *)
Inductive exit_status : Type :=
| ExitNormal               (* the loop broke and the script ran to its end *)
| ExitInterrupt            (* [parser.exit(0)] in the KeyboardInterrupt handler *)
| ExitError (e : exn).     (* [parser.exit(<type name>: <message>)] *)

(** How the supply of blocks ends: the user presses Ctrl-C while the loop
    waits on the queue, or the source simply stops delivering blocks. *)
Inductive supply_end : Type :=
| UserInterrupt
| StreamEnd.

(** What has become of the process: it has exited, or it is still waiting in
    [q.get()], which has no timeout. *)
Inductive process : Type :=
| Exited (status : exit_status)
| Waiting.

(** ** What the environment supplies with each block taken from the queue *)

(** [data] is the value of [q.get()]; [clock1] and [clock2] are the values
    [time.time()] returns the first and the second time it is called while
    this block is processed; [answer] is the recognizer's answer for it. *)
Record block : Type := {
  data : frame;
  clock1 : Q;
  clock2 : Q;
  answer : rec_answer
}.

(** ** test.py *)

Module Test.

Record state : Type := {
  recording : bool;
  audio_data : list frame;
  silence_timer : option Q
}.

Definition init : state :=
  {| recording := false; audio_data := []; silence_timer := None |}.

Inductive step_result : Type :=
| Continue (st : state)
| Break (st : state) (calls : list sink_call).

Section Script.
Variable filename : string.
Variable samplerate : Z.

(** One iteration of [while True], lines 81-104 (the prints of lines
    106-109 change nothing). *)
Definition loop_body (st : state) (blk : block) : step_result :=
  if accept (answer blk) then
    if has_text (rec_result (answer blk)) then
      Continue {| recording := true;
                  audio_data := if recording st
                                then audio_data st ++ [data blk]
                                else [data blk];
                  silence_timer := None |}
    else
      match recording st, silence_timer st with
      | true, None =>
          Continue {| recording := true;
                      audio_data := audio_data st;
                      silence_timer := Some (clock1 blk + 2)%Q |}
      | true, Some t =>
          if float_truthy t && Qlt_bool t (clock1 blk) then
            Break {| recording := false;
                     audio_data := audio_data st;
                     silence_timer := Some t |}
                  [WriteWave filename (audio_data st) samplerate]
          else Continue st
      | false, _ => Continue st
      end
  else
    if recording st
    then Continue {| recording := true;
                     audio_data := audio_data st ++ [data blk];
                     silence_timer := silence_timer st |}
    else Continue st.

(** The [except KeyboardInterrupt] handler, lines 111-117. *)
Definition on_interrupt (st : state) : exit_status * list sink_call :=
  (ExitInterrupt,
   if recording st then [WriteWave filename (audio_data st) samplerate] else []).

(** The state of the loop after the given blocks, when it is still
    running. *)
Fixpoint steps (st : state) (blocks : list block) : option state :=
  match blocks with
  | [] => Some st
  | blk :: rest =>
      match loop_body st blk with
      | Continue st' => steps st' rest
      | Break _ _ => None
      end
  end.

(** A run of the script: the blocks are processed in order; if the loop is
    still waiting on the queue when they are exhausted, the user
    interrupts it there. *)
Fixpoint run (st : state) (blocks : list block) : exit_status * list sink_call :=
  match blocks with
  | [] => on_interrupt st
  | blk :: rest =>
      match loop_body st blk with
      | Continue st' => run st' rest
      | Break _ calls => (ExitNormal, calls)
      end
  end.

Definition main (blocks : list block) : exit_status * list sink_call :=
  run init blocks.

(** The script with the way the supply of blocks ends.  After the last
    block, if the loop is still running it is back in [q.get()]: an
    interruption runs the handler; without one the call never returns. *)
Definition session (blocks : list block) (e : supply_end)
    : process * list sink_call :=
  match e, steps init blocks with
  | StreamEnd, Some _ => (Waiting, [])
  | _, _ => (Exited (fst (main blocks)), snd (main blocks))
  end.
End Script.

End Test.

(** ** test2.py *)

Module Test2.

Record state : Type := {
  recording : bool;
  audio_data : list frame;
  silence_timer : option Q
}.

Definition init : state :=
  {| recording := false; audio_data := []; silence_timer := None |}.

Inductive step_result : Type :=
| Continue (st : state)
| Break (st : state) (calls : list sink_call).

Definition temp_filename : string := "temp_output.wav".

Section Script.
Variable filename : string.
Variable samplerate : Z.
Variable silence : Z.

(** The two calls that store a recording, lines 121-122 and 139-140. *)
Definition store (audio : list frame) : list sink_call :=
  [WriteWave temp_filename audio samplerate; AppendWave temp_filename filename].

(** One iteration of [while True], lines 106-128. *)
Definition loop_body (st : state) (blk : block) : step_result :=
  if accept (answer blk) then
    if has_text (rec_result (answer blk)) then
      Continue {| recording := true;
                  audio_data := audio_data st ++ [data blk];
                  silence_timer := None |}
    else
      match recording st, silence_timer st with
      | true, None =>
          Continue {| recording := true;
                      audio_data := audio_data st;
                      silence_timer := Some (clock1 blk + inject_Z silence)%Q |}
      | true, Some t =>
          if float_truthy t && Qlt_bool t (clock1 blk) then
            Break {| recording := false;
                     audio_data := audio_data st;
                     silence_timer := Some t |}
                  (store (audio_data st))
          else Continue st
      | false, _ => Continue st
      end
  else
    if recording st
    then Continue {| recording := true;
                     audio_data := audio_data st ++ [data blk];
                     silence_timer := silence_timer st |}
    else Continue st.

(** The [except KeyboardInterrupt] handler, lines 135-142. *)
Definition on_interrupt (st : state) : exit_status * list sink_call :=
  (ExitInterrupt, if recording st then store (audio_data st) else []).

Fixpoint steps (st : state) (blocks : list block) : option state :=
  match blocks with
  | [] => Some st
  | blk :: rest =>
      match loop_body st blk with
      | Continue st' => steps st' rest
      | Break _ _ => None
      end
  end.

Fixpoint run (st : state) (blocks : list block) : exit_status * list sink_call :=
  match blocks with
  | [] => on_interrupt st
  | blk :: rest =>
      match loop_body st blk with
      | Continue st' => run st' rest
      | Break _ calls => (ExitNormal, calls)
      end
  end.

(** The script: the temporary file is created (line 91), then the loop
    runs. *)
Definition main (blocks : list block) : exit_status * list sink_call :=
  let r := run init blocks in
  (fst r, CreateWaveHeader temp_filename samplerate :: snd r).
End Script.

End Test2.

(** ** testson.py *)

Module Testson.

Record state : Type := {
  recording : bool;
  audio_data : list frame;
  silence_start : option Q;
  last_voice_activity : option Q;
  pre_speech_buffer : list frame
}.

Definition init : state :=
  {| recording := false; audio_data := []; silence_start := None;
     last_voice_activity := None; pre_speech_buffer := [] |}.

Inductive step_result : Type :=
| Continue (st : state)
| Break (st : state) (calls : list sink_call)
| Raised (e : exn).

Definition buffer_duration : Z := 1.

Section Script.
Variable filename : string.
Variable samplerate : Z.

(** The capacity the pre-speech buffer is held to:
    [buffer_duration * args.samplerate // 8000]. *)
Definition capacity : Z := buffer_duration * samplerate / 8000.

(** Lines 88-91. *)
Definition feed_buffer (st : state) (d : frame) : list frame :=
  if recording st then pre_speech_buffer st
  else
    let b := pre_speech_buffer st ++ [d] in
    if capacity <? Z.of_nat (length b) then pop0 b else b.

(** Lines 112-114: the cut applied when the silence has lasted. *)
Definition trim (audio : list frame) (last_voice current_time : Q) : list frame :=
  let end_time := py_min (last_voice + 1)%Q current_time in
  let frames_to_keep :=
    py_int ((end_time - last_voice) * inject_Z samplerate / inject_Z 8000)%Q in
  py_slice_to audio (Z.of_nat (length audio) - frames_to_keep).

(** Lines 122-127: the recognizer is fed the block. *)
Definition feed_recognizer (st : state) (blk : block) : state :=
  if accept (answer blk) then
    if has_text (rec_result (answer blk)) && negb (recording st) then
      {| recording := true;
         audio_data := pre_speech_buffer st ++ [data blk];
         silence_start := silence_start st;
         last_voice_activity := last_voice_activity st;
         pre_speech_buffer := pre_speech_buffer st |}
    else st
  else st.

(** One iteration of [while True], lines 87-127. *)
Definition loop_body (st : state) (blk : block) : step_result :=
  let buf := feed_buffer st (data blk) in
  match is_speech (data blk) with
  | Raise e => Raised e
  | Ok true =>
      Continue (feed_recognizer
        {| recording := true;
           audio_data := if recording st
                         then audio_data st ++ [data blk]
                         else buf ++ [data blk];
           silence_start := None;
           last_voice_activity := Some (clock1 blk);
           pre_speech_buffer := buf |} blk)
  | Ok false =>
      if recording st then
        let '(start, current_time) :=
          match silence_start st with
          | None => (clock1 blk, clock2 blk)
          | Some s => (s, clock1 blk)
          end in
        let audio := audio_data st ++ [data blk] in
        if Qlt_bool 3 (current_time - start)%Q then
          match last_voice_activity st with
          | None => Raised TypeError
          | Some lv =>
              let audio' := trim audio lv current_time in
              Break {| recording := false;
                       audio_data := audio';
                       silence_start := Some start;
                       last_voice_activity := Some lv;
                       pre_speech_buffer := buf |}
                    [WriteWave filename audio' samplerate]
          end
        else
          Continue (feed_recognizer
            {| recording := true;
               audio_data := audio;
               silence_start := Some start;
               last_voice_activity := last_voice_activity st;
               pre_speech_buffer := buf |} blk)
      else
        Continue (feed_recognizer
          {| recording := false;
             audio_data := audio_data st;
             silence_start := silence_start st;
             last_voice_activity := last_voice_activity st;
             pre_speech_buffer := buf |} blk)
  end.

(** The [except KeyboardInterrupt] handler, lines 129-135. *)
Definition on_interrupt (st : state) : exit_status * list sink_call :=
  (ExitInterrupt,
   if recording st then [WriteWave filename (audio_data st) samplerate] else []).

(** The state of the loop after the given blocks, when it is still
    running. *)
Fixpoint steps (st : state) (blocks : list block) : option state :=
  match blocks with
  | [] => Some st
  | blk :: rest =>
      match loop_body st blk with
      | Continue st' => steps st' rest
      | Break _ _ => None
      | Raised _ => None
      end
  end.

(** A run of the script: the blocks are processed in order; an exception
    reaches the [except Exception] handler (lines 136-137), which ends the
    process; if the loop is still waiting on the queue when the blocks are
    exhausted, the user interrupts it there. *)
Fixpoint run (st : state) (blocks : list block) : exit_status * list sink_call :=
  match blocks with
  | [] => on_interrupt st
  | blk :: rest =>
      match loop_body st blk with
      | Continue st' => run st' rest
      | Break _ calls => (ExitNormal, calls)
      | Raised e => (ExitError e, [])
      end
  end.

Definition main (blocks : list block) : exit_status * list sink_call :=
  run init blocks.

(** The script with the way the supply of blocks ends.  After the last
    block, if the loop is still running it is back in [q.get()]: an
    interruption runs the handler; without one the call never returns. *)
Definition session (blocks : list block) (e : supply_end)
    : process * list sink_call :=
  match e, steps init blocks with
  | StreamEnd, Some _ => (Waiting, [])
  | _, _ => (Exited (fst (main blocks)), snd (main blocks))
  end.
End Script.

End Testson.

(** ** Definitions that follow the specification's words *)

(** The amplitude strategy as the specification states it: speech iff the
    mean of the absolute sample magnitudes exceeds the threshold. *)
Definition spec_amplitude_verdict (samples : list Z) (threshold : Z) : bool :=
  match samples with
  | [] => false
  | _ => Qlt_bool (inject_Z threshold)
           (sumZ (map Z.abs samples) # Pos.of_nat (length samples))
  end.



(** The trailing-edge trim as the specification states it: of the blocks
    recorded after the last speech block, those that arrived later than
    [last_speech + post_roll] are removed. *)
Definition spec_trailing_trim (post_roll last_speech : Q)
    (recorded_after : list block) : list frame :=
  map data
    (filter (fun b => negb (Qlt_bool (last_speech + post_roll)%Q (clock1 b)))
            recorded_after).

(** ** Sample inputs *)

(** A block of one quiet sample (value [n], below the threshold) and a block
    of one loud sample (value [4096 + n]). *)
Definition quiet (n : byte) : frame := [n; x00].
Definition loud (n : byte) : frame := [n; x10].

(** A block with an odd number of bytes. *)
Definition malformed : frame := [x01; x02; x03].

(** Recognizer answers: nothing completed yet, a completed empty transcript,
    a completed transcript with text. *)
Definition pending : rec_answer := {| accept := false; rec_result := "" |}.
Definition transcript_empty : rec_answer :=
  {| accept := true; rec_result := ("{ " ++ empty_text_marker ++ " }")%string |}.
Definition transcript_text : rec_answer :=
  {| accept := true;
     rec_result := ("{ " ++ dq ++ "text" ++ dq ++ " : " ++ dq ++ "merhaba" ++ dq ++ " }")%string |}.

(** A block processed at time [t] (both clock readings equal). *)
Definition at_time (t : Q) (d : frame) (a : rec_answer) : block :=
  {| data := d; clock1 := t; clock2 := t; answer := a |}.

(** Capture at 16000 Hz, blocks of 8000 samples: one block every half second.
    Two quiet blocks, three loud ones, then quiet blocks. *)
Definition onset_blocks : list block :=
  [ at_time 0 (quiet x01) pending;
    at_time (1#2) (quiet x02) pending;
    at_time 1 (loud x01) pending;
    at_time (3#2) (loud x02) pending;
    at_time 2 (loud x03) pending ].

Definition silence_blocks_6 : list block :=
  [ at_time (5#2) (quiet x11) pending;
    at_time 3 (quiet x12) pending;
    at_time (7#2) (quiet x13) pending;
    at_time 4 (quiet x14) pending;
    at_time (9#2) (quiet x15) pending;
    at_time 5 (quiet x16) pending ].

Definition silence_blocks_8 : list block :=
  silence_blocks_6 ++
  [ at_time (11#2) (quiet x17) pending;
    at_time 6 (quiet x18) pending ].

(** An environment for the examples: the process works in a directory whose
    files it may open by plain name (a name that is not empty and holds no
    slash), each such name a file of its own; any other path is refused;
    there is room for what is written; a reader finds nothing more in a
    truncated file. *)
Definition plain_name (p : string) : bool :=
  negb (String.eqb p "") && negb (str_in "/" p).

#[global] Instance example_os : OS :=
  {| open_path p := if plain_name p then Some p else None;
     has_room _ _ := true;
     stale_read _ := [] |}.

(** A file that exists before test2.py runs. *)
Definition old_wav (rate : Z) : wav :=
  {| nchannels := 1; sampwidth := 2; framerate := rate;
     wav_frames := [x0a; x00; x0b; x00] |}.

(** Blocks for the recognizer-driven scripts: a transcript with text, then
    two empty transcripts three seconds apart. *)
Definition transcript_blocks : list block :=
  [ at_time 0 (loud x01) transcript_text;
    at_time 1 (quiet x01) transcript_empty;
    at_time 4 (quiet x02) transcript_empty ].

(** * Properties *)

(** ** Arithmetic of the helpers *)

Lemma Qlt_bool_iff (x y : Q) : Qlt_bool x y = true <-> (x < y)%Q.
Proof. unfold Qlt_bool, Qlt. apply Z.ltb_lt. Qed.

Lemma Qlt_bool_false_iff (x y : Q) : Qlt_bool x y = false <-> (y <= x)%Q.
Proof. unfold Qlt_bool, Qle. rewrite Z.ltb_ge. reflexivity. Qed.

Lemma wrap_int16_id (z : Z) : -32768 <= z <= 32767 -> wrap_int16 z = z.
Proof.
  intros Hz. unfold wrap_int16.
  rewrite Z.mod_small by lia. lia.
Qed.

Lemma int16_of_le_range (lo hi : byte) : -32768 <= int16_of_le lo hi <= 32767.
Proof.
  unfold int16_of_le.
  pose proof (Byte.to_N_bounded lo) as Hlo.
  pose proof (Byte.to_N_bounded hi) as Hhi.
  destruct (Z.leb_spec 32768 (Z.of_N (Byte.to_N lo) + 256 * Z.of_N (Byte.to_N hi))); lia.
Qed.

(** Induction on a buffer two bytes at a time, as [frombuffer_int16] reads
    it. *)
Lemma pairs_ind (P : list byte -> Prop) :
  P [] -> (forall b, P [b]) ->
  (forall lo hi rest, P rest -> P (lo :: hi :: rest)) ->
  forall l, P l.
Proof.
  intros Hnil Hone Hstep l.
  assert (H : P l /\ forall b, P (b :: l)).
  { induction l as [|x l [IH1 IH2]]; split; auto. }
  exact (proj1 H).
Qed.

Lemma frombuffer_int16_range (d : list byte) (samples : list Z) :
  frombuffer_int16 d = Ok samples ->
  Forall (fun x => -32768 <= x <= 32767) samples.
Proof.
  revert samples. induction d as [| b | lo hi rest IH] using pairs_ind;
    intros samples H; simpl in H.
  - injection H as <-. constructor.
  - discriminate.
  - destruct (frombuffer_int16 rest) as [tl|e]; simpl in H; [|discriminate].
    injection H as <-. constructor; [apply int16_of_le_range | auto].
Qed.

(** The buffer is decoded exactly when its length is even. *)
Lemma frombuffer_int16_raises (d : list byte) :
  Nat.odd (length d) = true <-> frombuffer_int16 d = Raise ValueError.
Proof.
  induction d as [| b | lo hi rest IH] using pairs_ind; simpl.
  - split; discriminate.
  - split; reflexivity.
  - change (Nat.odd (S (S (length rest)))) with (Nat.odd (length rest)).
    rewrite IH. destruct (frombuffer_int16 rest); simpl; split; congruence.
Qed.

Lemma np_abs_int16_exact (samples : list Z) :
  Forall (fun x => -32768 < x <= 32767) samples ->
  np_abs_int16 samples = map Z.abs samples.
Proof.
  unfold np_abs_int16. induction 1 as [|x l Hx _ IH]; simpl; [reflexivity|].
  rewrite IH, wrap_int16_id by lia. reflexivity.
Qed.

(** Away from the most negative sample the detector is the specified one. *)
Lemma is_speech_thr_spec (d : frame) (samples : list Z) (threshold : Z) :
  frombuffer_int16 d = Ok samples ->
  Forall (fun x => x <> -32768) samples ->
  is_speech_thr d threshold = Ok (spec_amplitude_verdict samples threshold).
Proof.
  intros Hd Hne. unfold is_speech_thr. rewrite Hd. simpl.
  assert (Hr : Forall (fun x => -32768 < x <= 32767) samples).
  { pose proof (frombuffer_int16_range _ _ Hd) as Hrange.
    rewrite Forall_forall in *. intros x Hx.
    specialize (Hrange x Hx). specialize (Hne x Hx). simpl in *. lia. }
  rewrite np_abs_int16_exact by exact Hr.
  unfold spec_amplitude_verdict, np_mean, gt_threshold.
  rewrite length_map.
  destruct samples as [|x l]; reflexivity.
Qed.

(** ** The amplitude detector *)

(** C6, at a block that the capture can deliver.  A block holding the most
    negative 16-bit sample (bytes 00 80, as a clipped input produces) is
    decoded to [-32768]; [np.abs] leaves it negative, the mean is [-32768],
    and the detector answers silence, although the mean of the absolute
    sample values, [32768], is above the threshold 500.  The same happens for
    a block alternating between the two extreme samples. *)
Theorem C6_is_speech_misses_clipped_block :
  frombuffer_int16 [x00; x80] = Ok [-32768] /\
  is_speech [x00; x80] = Ok false /\
  spec_amplitude_verdict [-32768] 500 = true /\
  frombuffer_int16 [xff; x7f; x00; x80] = Ok [32767; -32768] /\
  is_speech [xff; x7f; x00; x80] = Ok false /\
  spec_amplitude_verdict [32767; -32768] 500 = true.
Proof. repeat split; vm_compute; reflexivity. Qed.

(** ** testson.py: the pre-speech buffer *)

Section TestsonBuffer.
Variable filename : string.
Variable samplerate : Z.

Local Abbreviation loop_body := (Testson.loop_body filename samplerate).
Local Abbreviation steps := (Testson.steps filename samplerate).
Local Abbreviation feed_buffer := (Testson.feed_buffer samplerate).
Local Abbreviation capacity := (Testson.capacity samplerate).

Lemma feed_recognizer_buffer st blk :
  Testson.pre_speech_buffer (Testson.feed_recognizer st blk)
  = Testson.pre_speech_buffer st.
Proof.
  unfold Testson.feed_recognizer.
  destruct (accept (answer blk)); [|reflexivity].
  destruct (has_text _ && negb _); reflexivity.
Qed.

(** Whatever branch an iteration takes, the buffer it leaves is the one
    lines 88-91 computed. *)
Lemma loop_body_buffer st blk st' :
  loop_body st blk = Testson.Continue st' ->
  Testson.pre_speech_buffer st' = feed_buffer st (data blk).
Proof.
  unfold Testson.loop_body. intros H.
  destruct (is_speech (data blk)) as [[|]|e]; [| |discriminate].
  - injection H as <-. apply feed_recognizer_buffer.
  - destruct (Testson.recording st).
    + destruct (Testson.silence_start st) as [s|];
        match type of H with
        | (if ?c then _ else _) = _ => destruct c
        end;
        try (destruct (Testson.last_voice_activity st); discriminate);
        injection H as <-; apply feed_recognizer_buffer.
    + injection H as <-. apply feed_recognizer_buffer.
Qed.

Lemma feed_buffer_idle st d :
  Testson.recording st = false ->
  feed_buffer st d =
    if capacity <? Z.of_nat (length (Testson.pre_speech_buffer st)) + 1
    then tail (Testson.pre_speech_buffer st ++ [d])
    else Testson.pre_speech_buffer st ++ [d].
Proof.
  intros Hidle. unfold Testson.feed_buffer. rewrite Hidle.
  rewrite length_app. simpl length.
  replace (Z.of_nat (length (Testson.pre_speech_buffer st) + 1))
    with (Z.of_nat (length (Testson.pre_speech_buffer st)) + 1) by lia.
  reflexivity.
Qed.

Lemma feed_buffer_length st d :
  Z.of_nat (length (Testson.pre_speech_buffer st)) <= capacity ->
  Z.of_nat (length (feed_buffer st d)) <= capacity.
Proof.
  intros Hlen. unfold Testson.feed_buffer.
  destruct (Testson.recording st); [exact Hlen|].
  destruct (Z.ltb_spec capacity
              (Z.of_nat (length (Testson.pre_speech_buffer st ++ [d])))) as [Hlt|Hge].
  - unfold pop0. destruct (Testson.pre_speech_buffer st); simpl in *.
    + lia.
    + rewrite length_app. simpl. rewrite length_app in Hlt. simpl in Hlt. lia.
  - exact Hge.
Qed.


Lemma steps_buffer_bounded blocks : forall st st',
  Z.of_nat (length (Testson.pre_speech_buffer st)) <= capacity ->
  steps st blocks = Some st' ->
  Z.of_nat (length (Testson.pre_speech_buffer st')) <= capacity.
Proof.
  induction blocks as [|blk rest IH]; intros st st' Hlen Hsteps; simpl in Hsteps.
  - injection Hsteps as <-. exact Hlen.
  - destruct (loop_body st blk) as [st1| |] eqn:Hbody; try discriminate.
    apply (IH st1 st'); [|exact Hsteps].
    rewrite (loop_body_buffer _ _ _ Hbody). apply feed_buffer_length, Hlen.
Qed.

Lemma capacity_nonneg : 0 <= samplerate -> 0 <= capacity.
Proof.
  intros H. unfold Testson.capacity, Testson.buffer_duration.
  apply Z.div_pos; lia.
Qed.

(** C7.  After every processed block the pre-speech buffer holds at most
    [N = floor(1 * samplerate / 8000)] blocks, however many blocks arrive
    while idle; and an idle iteration appends the block, dropping the
    oldest block (the head) exactly when the buffer would exceed [N]. *)
Theorem C7_pre_speech_buffer_bounded :
  0 <= samplerate ->
  Testson.capacity samplerate = 1 * samplerate / 8000 /\
  (forall blocks st,
      steps Testson.init blocks = Some st ->
      Z.of_nat (length (Testson.pre_speech_buffer st)) <= capacity) /\
  (forall st blk st',
      Testson.recording st = false ->
      loop_body st blk = Testson.Continue st' ->
      Testson.pre_speech_buffer st' =
        if capacity <? Z.of_nat (length (Testson.pre_speech_buffer st)) + 1
        then tail (Testson.pre_speech_buffer st ++ [data blk])
        else Testson.pre_speech_buffer st ++ [data blk]).
Proof.
  intros Hrate. split; [reflexivity|]. split.
  - intros blocks st Hsteps.
    apply (steps_buffer_bounded blocks Testson.init st); [|exact Hsteps].
    simpl. apply capacity_nonneg, Hrate.
  - intros st blk st' Hidle Hbody.
    rewrite (loop_body_buffer _ _ _ Hbody). apply feed_buffer_idle, Hidle.
Qed.
End TestsonBuffer.

Lemma C7_pre_speech_buffer_bounded_witness :
  0 <= 16000 /\
  Z.of_nat (length [quiet x02; loud x01]) <= Testson.capacity 16000.
Proof.
  split; [lia|].
  exact (proj1 (proj2 (C7_pre_speech_buffer_bounded "output.wav" 16000 ltac:(lia)))
           onset_blocks
           {| Testson.recording := true;
              Testson.audio_data :=
                [quiet x02; loud x01; loud x01; loud x02; loud x03];
              Testson.silence_start := None;
              Testson.last_voice_activity := Some 2%Q;
              Testson.pre_speech_buffer := [quiet x02; loud x01] |}
           eq_refl).
Defined.

(** ** Start of a recording *)





(** ** Exceptions and interruption *)

Section TestsonRuns.
Variable filename : string.
Variable samplerate : Z.

Local Abbreviation loop_body := (Testson.loop_body filename samplerate).
Local Abbreviation steps := (Testson.steps filename samplerate).
Local Abbreviation run := (Testson.run filename samplerate).

(** A run continues from the state reached by a prefix that kept the loop
    going. *)
Lemma testson_run_app pre : forall st st1 rest,
  steps st pre = Some st1 ->
  run st (pre ++ rest) = run st1 rest.
Proof.
  induction pre as [|blk pre IH]; intros st st1 rest Hsteps; simpl in *.
  - injection Hsteps as <-. reflexivity.
  - destruct (loop_body st blk); try discriminate. apply IH, Hsteps.
Qed.

Lemma testson_detector_raises st blk e :
  is_speech (data blk) = Raise e ->
  loop_body st blk = Testson.Raised e.
Proof. intros H. unfold Testson.loop_body. rewrite H. reflexivity. Qed.

(** C3, amended.  When the amplitude detector raises on a block (as it does
    on a block with an odd number of bytes), the iteration raises, the
    exception reaches the catch-all handler and the process ends with the
    error: no later block is processed and nothing is written, not even a
    recording in progress. *)
Theorem C3_detector_failure_ends_process st pre st1 blk e rest :
  steps st pre = Some st1 ->
  is_speech (data blk) = Raise e ->
  loop_body st1 blk = Testson.Raised e /\
  run st (pre ++ blk :: rest) = (ExitError e, []).
Proof.
  intros Hsteps Hraise.
  pose proof (testson_detector_raises st1 blk e Hraise) as Hbody.
  split; [exact Hbody|].
  rewrite (testson_run_app pre st st1 _ Hsteps). simpl. rewrite Hbody.
  reflexivity.
Qed.
End TestsonRuns.

Lemma is_speech_odd_length (d : frame) :
  Nat.odd (length d) = true -> is_speech d = Raise ValueError.
Proof.
  intros H. unfold is_speech, is_speech_thr.
  apply frombuffer_int16_raises in H. rewrite H. reflexivity.
Qed.

Lemma C3_detector_failure_ends_process_witness :
  Testson.run "output.wav" 16000 Testson.init
    (onset_blocks ++ at_time (5#2) malformed pending :: silence_blocks_8)
  = (ExitError ValueError, []).
Proof.
  refine (proj2 (C3_detector_failure_ends_process "output.wav" 16000
                   Testson.init onset_blocks _ (at_time (5#2) malformed pending)
                   ValueError silence_blocks_8 _ _)).
  - vm_compute. reflexivity.
  - apply is_speech_odd_length. reflexivity.
Defined.

(** C3 as stated does not hold: on a malformed block the loop of testson.py
    does not go on to the next block; the process ends with the error. *)
Lemma C3_malformed_block_not_treated_as_silence :
  is_speech malformed = Raise ValueError /\
  ~ (exists st',
        Testson.loop_body "output.wav" 16000 Testson.init
          (at_time 0 malformed pending) = Testson.Continue st') /\
  Testson.main "output.wav" 16000
    [at_time 0 malformed pending; at_time (1#2) (loud x01) pending]
  = (ExitError ValueError, []).
Proof.
  split; [reflexivity|]. split; [|reflexivity].
  intros [st' H]. vm_compute in H. discriminate.
Qed.


Section Interruption.
Variable filename : string.
Variable samplerate : Z.





End Interruption.



(** ** The silence timer *)

Section SilenceTimer.
Variable filename : string.
Variable samplerate : Z.

(** test.py: an iteration that keeps the loop going leaves no timer set
    while idle, if there was none before. *)
Lemma test_timer_step st blk st' :
  (Test.recording st = false -> Test.silence_timer st = None) ->
  Test.loop_body filename samplerate st blk = Test.Continue st' ->
  Test.recording st' = false -> Test.silence_timer st' = None.
Proof.
  intros Hinv Hbody Hidle. unfold Test.loop_body in Hbody.
  destruct (accept (answer blk)).
  - destruct (has_text _).
    + injection Hbody as <-. reflexivity.
    + destruct (Test.recording st) eqn:Hrec.
      * destruct (Test.silence_timer st) as [t|].
        -- destruct (float_truthy t && Qlt_bool t (clock1 blk)); [discriminate|].
           injection Hbody as <-. congruence.
        -- injection Hbody as <-. discriminate.
      * injection Hbody as <-. auto.
  - destruct (Test.recording st) eqn:Hrec; injection Hbody as <-.
    + discriminate.
    + auto.
Qed.

Lemma test_timer_invariant blocks : forall st st',
  (Test.recording st = false -> Test.silence_timer st = None) ->
  Test.steps filename samplerate st blocks = Some st' ->
  Test.recording st' = false -> Test.silence_timer st' = None.
Proof.
  induction blocks as [|blk rest IH]; intros st st' Hinv Hsteps; simpl in Hsteps.
  - injection Hsteps as <-. exact Hinv.
  - destruct (Test.loop_body filename samplerate st blk) as [st1|] eqn:Hbody;
      [|discriminate].
    apply (IH st1 st'); [|exact Hsteps].
    apply (test_timer_step st blk st1 Hinv Hbody).
Qed.

Lemma testson_feed_recognizer_timer st blk :
  Testson.silence_start (Testson.feed_recognizer st blk) = Testson.silence_start st.
Proof.
  unfold Testson.feed_recognizer.
  destruct (accept (answer blk)); [|reflexivity].
  destruct (has_text _ && negb _); reflexivity.
Qed.

Lemma testson_feed_recognizer_idle st blk :
  Testson.recording (Testson.feed_recognizer st blk) = false ->
  Testson.recording st = false.
Proof.
  unfold Testson.feed_recognizer.
  destruct (accept (answer blk)); [|auto].
  destruct (has_text _ && negb _); simpl; [discriminate|auto].
Qed.

(** testson.py: the same invariant for [silence_start]. *)
Lemma testson_timer_step st blk st' :
  (Testson.recording st = false -> Testson.silence_start st = None) ->
  Testson.loop_body filename samplerate st blk = Testson.Continue st' ->
  Testson.recording st' = false -> Testson.silence_start st' = None.
Proof.
  intros Hinv Hbody Hidle. unfold Testson.loop_body in Hbody.
  destruct (is_speech (data blk)) as [[|]|e]; [| |discriminate].
  - injection Hbody as <-. rewrite testson_feed_recognizer_timer. reflexivity.
  - destruct (Testson.recording st) eqn:Hrec.
    + destruct (Testson.silence_start st) as [s|];
        match type of Hbody with
        | (if ?c then _ else _) = _ => destruct c
        end;
        try (destruct (Testson.last_voice_activity st); discriminate);
        injection Hbody as <-;
        apply testson_feed_recognizer_idle in Hidle; discriminate.
    + injection Hbody as <-. rewrite testson_feed_recognizer_timer. simpl. auto.
Qed.

Lemma testson_timer_invariant blocks : forall st st',
  (Testson.recording st = false -> Testson.silence_start st = None) ->
  Testson.steps filename samplerate st blocks = Some st' ->
  Testson.recording st' = false -> Testson.silence_start st' = None.
Proof.
  induction blocks as [|blk rest IH]; intros st st' Hinv Hsteps; simpl in Hsteps.
  - injection Hsteps as <-. exact Hinv.
  - destruct (Testson.loop_body filename samplerate st blk) as [st1| |] eqn:Hbody;
      try discriminate.
    apply (IH st1 st'); [|exact Hsteps].
    apply (testson_timer_step st blk st1 Hinv Hbody).
Qed.

(** While testson.py is recording, what the recognizer answers for a block
    changes nothing to the iteration. *)
Lemma testson_recognizer_ignored st blk a :
  Testson.recording st = true ->
  Testson.loop_body filename samplerate st blk =
  Testson.loop_body filename samplerate st
    {| data := data blk; clock1 := clock1 blk; clock2 := clock2 blk;
       answer := a |}.
Proof.
  intros Hrec. unfold Testson.loop_body, Testson.feed_recognizer. simpl.
  rewrite Hrec. simpl.
  destruct (is_speech (data blk)) as [[|]|e]; [| |reflexivity].
  - rewrite !andb_false_r.
    destruct (accept (answer blk)), (accept a); reflexivity.
  - destruct (Testson.silence_start st) as [s|];
      match goal with
      | |- context [if Qlt_bool ?x ?y then _ else _] => destruct (Qlt_bool x y)
      end; try reflexivity;
      rewrite !andb_false_r;
      destruct (accept (answer blk)), (accept a); reflexivity.
Qed.

(** C8, amended.  In test.py and in testson.py the silence timer
    ([silence_timer], [silence_start]) is never set while the loop is idle,
    after any sequence of blocks; and an iteration with a speech verdict of
    the detector that drives the recording (a transcript with text in
    test.py, the amplitude verdict in testson.py) always keeps the loop going
    and leaves the timer unset, whatever it was before.  In testson.py the
    recognizer only starts recordings: while recording, its answer for a
    block, a transcript with text included, has no effect on the iteration,
    so it does not clear the timer. *)
Theorem C8_silence_timer_discipline :
  (forall blocks st,
      Test.steps filename samplerate Test.init blocks = Some st ->
      Test.recording st = false -> Test.silence_timer st = None) /\
  (forall st blk,
      accept (answer blk) = true ->
      has_text (rec_result (answer blk)) = true ->
      exists st',
        Test.loop_body filename samplerate st blk = Test.Continue st' /\
        Test.recording st' = true /\ Test.silence_timer st' = None) /\
  (forall blocks st,
      Testson.steps filename samplerate Testson.init blocks = Some st ->
      Testson.recording st = false -> Testson.silence_start st = None) /\
  (forall st blk,
      is_speech (data blk) = Ok true ->
      exists st',
        Testson.loop_body filename samplerate st blk = Testson.Continue st' /\
        Testson.recording st' = true /\ Testson.silence_start st' = None) /\
  (forall st blk a,
      Testson.recording st = true ->
      Testson.loop_body filename samplerate st blk =
      Testson.loop_body filename samplerate st
        {| data := data blk; clock1 := clock1 blk; clock2 := clock2 blk;
           answer := a |}).
Proof.
  split; [|split; [|split; [|split]]]; [| | | | apply testson_recognizer_ignored].
  - intros blocks st. apply test_timer_invariant. reflexivity.
  - intros st blk Hacc Htext. unfold Test.loop_body. rewrite Hacc, Htext.
    eexists. split; [reflexivity|]. split; reflexivity.
  - intros blocks st. apply testson_timer_invariant. reflexivity.
  - intros st blk Hspeech. unfold Testson.loop_body. rewrite Hspeech.
    eexists. split; [reflexivity|]. split.
    + unfold Testson.feed_recognizer.
      destruct (accept (answer blk)); [|reflexivity].
      destruct (has_text _ && negb _); reflexivity.
    + rewrite testson_feed_recognizer_timer. reflexivity.
Qed.
End SilenceTimer.

Lemma C8_silence_timer_discipline_witness :
  exists st',
    Testson.loop_body "output.wav" 16000
      {| Testson.recording := true;
         Testson.audio_data := [loud x01; loud x01; quiet x11];
         Testson.silence_start := Some (5#2);
         Testson.last_voice_activity := Some 2%Q;
         Testson.pre_speech_buffer := [loud x01] |}
      (at_time 3 (loud x04) pending) = Testson.Continue st' /\
    Testson.recording st' = true /\ Testson.silence_start st' = None.
Proof.
  apply (proj1 (proj2 (proj2 (proj2 (C8_silence_timer_discipline "output.wav" 16000))))).
  vm_compute. reflexivity.
Defined.

(** C8 as stated does not hold in testson.py: during a recording whose
    silence timer is set, a quiet block on which the recognizer completes a
    transcript with text (a speech verdict of the recognizer) leaves the
    timer as it was, and three and a half seconds into the silence such a
    block stops the recording. *)
Lemma C8_transcript_leaves_timer_set :
  accept transcript_text = true /\
  has_text (rec_result transcript_text) = true /\
  Testson.steps "output.wav" 16000 Testson.init
    [at_time 2 (loud x01) pending; at_time (5#2) (quiet x11) pending]
  = Some {| Testson.recording := true;
            Testson.audio_data := [loud x01; loud x01; quiet x11];
            Testson.silence_start := Some (5#2);
            Testson.last_voice_activity := Some 2%Q;
            Testson.pre_speech_buffer := [loud x01] |} /\
  (exists st',
      Testson.loop_body "output.wav" 16000
        {| Testson.recording := true;
           Testson.audio_data := [loud x01; loud x01; quiet x11];
           Testson.silence_start := Some (5#2);
           Testson.last_voice_activity := Some 2%Q;
           Testson.pre_speech_buffer := [loud x01] |}
        (at_time 3 (quiet x12) transcript_text) = Testson.Continue st' /\
      Testson.recording st' = true /\
      Testson.silence_start st' = Some (5#2)) /\
  (exists st',
      Testson.loop_body "output.wav" 16000
        {| Testson.recording := true;
           Testson.audio_data := [loud x01; loud x01; quiet x11];
           Testson.silence_start := Some (5#2);
           Testson.last_voice_activity := Some 2%Q;
           Testson.pre_speech_buffer := [loud x01] |}
        (at_time 6 (quiet x12) transcript_text) =
      Testson.Break st' [WriteWave "output.wav" [loud x01; loud x01] 16000]).
Proof.
  split; [reflexivity|]. split; [vm_compute; reflexivity|].
  split; [vm_compute; reflexivity|]. split.
  - eexists. split; [vm_compute; reflexivity|]. split; reflexivity.
  - eexists. vm_compute. reflexivity.
Qed.

(** ** The end of a recording by silence *)

Lemma py_int_nonneg (q : Q) : (0 <= q)%Q -> py_int q = Qfloor q.
Proof.
  destruct q as [n d]. unfold Qle, py_int, Qfloor. simpl. intros Hn.
  apply Z.quot_div_nonneg; lia.
Qed.

Lemma py_int_fraction (n : Z) (q : Q) :
  0 <= n -> (q == n # 8000)%Q -> py_int q = n / 8000.
Proof.
  intros Hn Hq. rewrite py_int_nonneg.
  - rewrite Hq. reflexivity.
  - rewrite Hq. unfold Qle. simpl. lia.
Qed.

Lemma py_slice_to_nonneg {A} (l : list A) (k : Z) :
  0 <= k -> py_slice_to l k = firstn (Z.to_nat k) l.
Proof.
  intros Hk. unfold py_slice_to.
  destruct (Z.ltb_spec k 0); [lia|reflexivity].
Qed.

(** What lines 112-114 do once a second or more has passed since the last
    speech block: [frames_to_keep] is [samplerate // 8000], and that many
    blocks are removed from the end of the segment. *)
Lemma trim_after_one_second samplerate audio lv now :
  0 <= samplerate ->
  (lv + 1 <= now)%Q ->
  Testson.trim samplerate audio lv now
  = py_slice_to audio (Z.of_nat (length audio) - samplerate / 8000).
Proof.
  intros Hrate Hnow. unfold Testson.trim, py_min.
  apply Qlt_bool_false_iff in Hnow. rewrite Hnow.
  rewrite (py_int_fraction samplerate); [reflexivity|exact Hrate|].
  rewrite (Qmake_Qdiv samplerate 8000). field.
Qed.

Lemma trim_after_one_second_firstn samplerate audio lv now :
  0 <= samplerate ->
  samplerate / 8000 <= Z.of_nat (length audio) ->
  (lv + 1 <= now)%Q ->
  Testson.trim samplerate audio lv now
  = firstn (length audio - Z.to_nat (samplerate / 8000)) audio.
Proof.
  intros Hrate Hlen Hnow.
  rewrite trim_after_one_second by assumption.
  rewrite py_slice_to_nonneg by lia.
  f_equal. pose proof (Z.div_pos samplerate 8000 Hrate ltac:(lia)). lia.
Qed.

(** testson.py goes on recording as long as the silence has lasted three
    seconds or less. *)
Lemma testson_silence_continues filename samplerate st blk s :
  Testson.recording st = true ->
  Testson.silence_start st = Some s ->
  is_speech (data blk) = Ok false ->
  (clock1 blk - s <= 3)%Q ->
  exists st',
    Testson.loop_body filename samplerate st blk = Testson.Continue st' /\
    Testson.recording st' = true.
Proof.
  intros Hrec Hstart Hquiet Hshort. unfold Testson.loop_body.
  rewrite Hquiet, Hrec, Hstart.
  apply Qlt_bool_false_iff in Hshort. rewrite Hshort.
  eexists. split; [reflexivity|].
  unfold Testson.feed_recognizer. simpl.
  destruct (accept (answer blk)); [|reflexivity].
  rewrite andb_false_r. reflexivity.
Qed.

(** It stops once the silence has lasted more than three seconds. *)
Lemma testson_silence_stops filename samplerate st blk s lv :
  Testson.recording st = true ->
  Testson.silence_start st = Some s ->
  Testson.last_voice_activity st = Some lv ->
  is_speech (data blk) = Ok false ->
  (3 < clock1 blk - s)%Q ->
  exists st',
    Testson.loop_body filename samplerate st blk =
      Testson.Break st'
        [WriteWave filename
           (Testson.trim samplerate (Testson.audio_data st ++ [data blk]) lv
              (clock1 blk))
           samplerate].
Proof.
  intros Hrec Hstart Hlv Hquiet Hlong. unfold Testson.loop_body.
  rewrite Hquiet, Hrec, Hstart, Hlv.
  apply Qlt_bool_iff in Hlong. rewrite Hlong.
  eexists. reflexivity.
Qed.

(** test2.py arms the timer at [time.time() + args.silence] and stops on the
    first empty transcript that arrives after that time. *)
Lemma test2_silence_arms filename samplerate silence st blk :
  Test2.recording st = true ->
  Test2.silence_timer st = None ->
  accept (answer blk) = true ->
  has_text (rec_result (answer blk)) = false ->
  exists st',
    Test2.loop_body filename samplerate silence st blk = Test2.Continue st' /\
    Test2.silence_timer st' = Some (clock1 blk + inject_Z silence)%Q.
Proof.
  intros Hrec Htimer Hacc Htext. unfold Test2.loop_body.
  rewrite Hacc, Htext, Hrec, Htimer. eexists. split; reflexivity.
Qed.

Lemma test2_silence_stops filename samplerate silence st blk t :
  Test2.recording st = true ->
  Test2.silence_timer st = Some t ->
  accept (answer blk) = true ->
  has_text (rec_result (answer blk)) = false ->
  float_truthy t = true ->
  (t < clock1 blk)%Q ->
  exists st',
    Test2.loop_body filename samplerate silence st blk =
      Test2.Break st' (Test2.store filename samplerate (Test2.audio_data st)).
Proof.
  intros Hrec Htimer Hacc Htext Htruthy Hlate. unfold Test2.loop_body.
  rewrite Hacc, Htext, Hrec, Htimer, Htruthy.
  apply Qlt_bool_iff in Hlate. rewrite Hlate. eexists. reflexivity.
Qed.

(** A recording started by the recognizer alone has no
    [last_voice_activity]: when the silence limit is passed, line 112 adds 1
    to [None], and the run ends with the error instead of a file. *)
Lemma testson_recognizer_only_recording_is_lost :
  Testson.main "output.wav" 16000
    [ at_time 0 (quiet x01) transcript_text;
      at_time 1 (quiet x02) pending;
      at_time 5 (quiet x03) pending ]
  = (ExitError TypeError, []).
Proof. vm_compute. reflexivity. Qed.

(** C1, at a capture the script can receive: 16000 Hz, one block every half
    second, two quiet blocks, three loud ones (the last at time 2), then
    eight quiet ones.  The silence limit is passed at the eighth quiet block;
    lines 112-114 remove the last two blocks of the segment and keep the six
    quiet blocks before them.  The blocks that arrived at times 7/2, 4, 9/2
    and 5, later than the last speech block plus one second, are written to
    the file, whereas the trim of the specification keeps only the two quiet
    blocks that arrived by time 3. *)
Theorem C1_trim_keeps_late_silence :
  Testson.main "output.wav" 16000 (onset_blocks ++ silence_blocks_8) =
    (ExitNormal,
     [WriteWave "output.wav"
        [quiet x02; loud x01; loud x01; loud x02; loud x03;
         quiet x11; quiet x12; quiet x13; quiet x14; quiet x15; quiet x16]
        16000]) /\
  spec_trailing_trim 1 2 silence_blocks_8 = [quiet x11; quiet x12].
Proof. split; vm_compute; reflexivity. Qed.

(** C4, at the same capture cut after six quiet blocks: the silence began at
    time 5/2 and the last block is processed at time 5, so it has lasted
    more than two seconds, and testson.py is still recording; the run ends
    only by the interruption. *)
Theorem C4_testson_waits_three_seconds :
  exists st,
    Testson.steps "output.wav" 16000 Testson.init
      (onset_blocks ++ silence_blocks_6) = Some st /\
    Testson.recording st = true /\
    Testson.silence_start st = Some (5#2) /\
    Qlt_bool 2 (5 - (5#2)) = true /\
    fst (Testson.main "output.wav" 16000 (onset_blocks ++ silence_blocks_6))
      = ExitInterrupt.
Proof.
  eexists. split; [vm_compute; reflexivity|].
  repeat split; vm_compute; reflexivity.
Qed.

(** ** test2.py: storing a recording *)

Lemma copy_frames_all (chunk : nat) : forall fuel src,
  (0 < chunk)%nat -> (length src < fuel)%nat ->
  copy_frames fuel chunk src = src.
Proof.
  induction fuel as [|fuel IH]; intros src Hchunk Hfuel; [lia|].
  simpl. destruct (firstn chunk src) as [|b l] eqn:Hfirst.
  - destruct src as [|x src]; [reflexivity|].
    destruct chunk; [lia|discriminate].
  - rewrite <- Hfirst. rewrite IH.
    + apply firstn_skipn.
    + exact Hchunk.
    + destruct src as [|x src]; [rewrite firstn_nil in Hfirst; discriminate|].
      rewrite length_skipn. simpl in *. lia.
Qed.

Lemma header_fits_mono16 (rate : Z) (d : list byte) :
  0 < rate <= 2147483647 ->
  header_fits {| nchannels := 1; sampwidth := 2; framerate := rate;
                 wav_frames := d |} = true.
Proof.
  intros Hrate. unfold header_fits. cbn [nchannels sampwidth framerate].
  rewrite !andb_true_iff, !Z.leb_le. lia.
Qed.

Section Store.
Context `{os : OS}.

(** [append_wave] leaves in the destination a copy of the temporary file and
    nothing of what the destination held. *)
Lemma append_wave_replaces (fs : gmap string wav) temp final t f w :
  open_path temp = Some t ->
  open_path final = Some f ->
  t <> f ->
  fs !! t = Some w ->
  nchannels w = 1 -> sampwidth w = 2 -> 0 < framerate w <= 2147483647 ->
  data_fits (wav_frames w) = true ->
  has_room f (wav_frames w) = true ->
  append_wave fs temp final = Ok (<[f := w]> fs).
Proof.
  intros Htemp Hfinal Hne Hw Hch Hsw Hrate Hfits Hroom. unfold append_wave.
  rewrite Htemp, Hw, Hch, Hsw.
  change ((1 <? 1) || (2 <? 1)) with false. cbv iota. rewrite Hfinal.
  change ((4 <? 2) || (framerate w <=? 0)) with (framerate w <=? 0).
  destruct (Z.leb_spec (framerate w) 0) as [Hle|_]; [lia|].
  destruct (String.eqb_spec t f) as [Heq|_]; [congruence|].
  cbv zeta.
  rewrite copy_frames_all; [| vm_compute; lia | lia].
  rewrite (header_fits_mono16 _ _ Hrate), Hroom, Hfits. cbn [negb].
  rewrite insert_insert_eq.
  destruct w; simpl in *; subst. reflexivity.
Qed.

(** The two calls of [store] put the segment alone in the destination,
    whatever the file system held, when the rate and the size of the segment
    fit a wave header, both files can be opened, are not one file, and have
    room for the segment. *)
Lemma store_replaces (fs : gmap string wav) filename samplerate audio f t :
  0 < samplerate <= 2147483647 ->
  data_fits (join_bytes audio) = true ->
  open_path filename = Some f ->
  open_path Test2.temp_filename = Some t ->
  f <> t ->
  has_room t (join_bytes audio) = true ->
  has_room f (join_bytes audio) = true ->
  exists fs',
    do_calls fs (Test2.store filename samplerate audio) = Ok fs' /\
    fs' !! f =
      Some {| nchannels := 1; sampwidth := 2; framerate := samplerate;
              wav_frames := join_bytes audio |}.
Proof.
  intros Hrate Hfits Hf Ht Hne Hroomt Hroomf.
  unfold Test2.store. cbn [do_calls do_call rbind]. unfold write_wave.
  rewrite Ht. destruct (Z.leb_spec samplerate 0) as [Hle|_]; [lia|].
  cbv zeta. cbn [wav_frames].
  rewrite (header_fits_mono16 _ _ Hrate), Hfits, Hroomt. cbn [negb andb rbind].
  erewrite (append_wave_replaces _ _ _ t f);
    [| exact Ht | exact Hf | congruence | apply lookup_insert_eq
     | reflexivity | reflexivity | exact Hrate | exact Hfits | exact Hroomf ].
  eexists. split; [reflexivity|]. apply lookup_insert_eq.
Qed.
End Store.

(** C2, at a destination that exists.  With [output.wav] holding two frames
    at 16000 Hz, a run that records one block and stops by silence leaves in
    [output.wav] the frames of that block alone: the earlier frames are gone.
    With [output.wav] at 44100 Hz the same run ends without an error and the
    file is replaced by one at 16000 Hz. *)
Theorem C2_append_wave_overwrites :
  Test2.main "output.wav" 16000 2 transcript_blocks =
    (ExitNormal,
     [CreateWaveHeader "temp_output.wav" 16000;
      WriteWave "temp_output.wav" [loud x01] 16000;
      AppendWave "temp_output.wav" "output.wav"]) /\
  (exists fs',
      do_calls {[ "output.wav" := old_wav 16000 ]}
        (snd (Test2.main "output.wav" 16000 2 transcript_blocks)) = Ok fs' /\
      fs' !! "output.wav" =
        Some {| nchannels := 1; sampwidth := 2; framerate := 16000;
                wav_frames := [x01; x10] |}) /\
  (exists fs',
      do_calls {[ "output.wav" := old_wav 44100 ]}
        (snd (Test2.main "output.wav" 16000 2 transcript_blocks)) = Ok fs' /\
      fs' !! "output.wav" =
        Some {| nchannels := 1; sampwidth := 2; framerate := 16000;
                wav_frames := [x01; x10] |}).
Proof.
  split; [vm_compute; reflexivity|].
  split; eexists; (split; [vm_compute; reflexivity | vm_compute; reflexivity]).
Qed.

(** * Further properties of the scripts *)

(** ** The transcript test *)

Lemma prefix_app (n h : string) :
  String.prefix n h = true <-> exists b, h = (n ++ b)%string.
Proof.
  revert h. induction n as [|c n IH]; intros h.
  - destruct h; simpl; split; eauto.
  - destruct h as [|c' h]; simpl.
    + split; [discriminate|]. intros [b Hb]. discriminate.
    + destruct (Ascii.ascii_dec c c') as [->|Hne].
      * rewrite IH. split; intros [b Hb]; exists b.
        -- rewrite Hb. reflexivity.
        -- change (String c' n ++ b)%string with (String c' (n ++ b)) in Hb.
           congruence.
      * split; [discriminate|]. intros [b Hb].
        change (String c n ++ b)%string with (String c (n ++ b)) in Hb.
        congruence.
Qed.

Lemma str_in_eq (needle hay : string) :
  str_in needle hay =
    String.prefix needle hay ||
    match hay with
    | EmptyString => false
    | String _ rest => str_in needle rest
    end.
Proof. destruct hay; reflexivity. Qed.

Lemma str_in_iff (needle hay : string) :
  str_in needle hay = true <->
  exists a b, hay = (a ++ needle ++ b)%string.
Proof.
  split.
  - induction hay as [|c hay IH]; rewrite str_in_eq; intros H;
      apply orb_true_iff in H as [H|H].
    + apply prefix_app in H as [b Hb]. exists EmptyString, b. exact Hb.
    + discriminate.
    + apply prefix_app in H as [b Hb]. exists EmptyString, b. exact Hb.
    + destruct (IH H) as (a & b & ->). exists (String c a), b. reflexivity.
  - intros (a & b & ->). induction a as [|c a IH]; rewrite str_in_eq.
    + apply orb_true_iff. left. apply prefix_app. eauto.
    + apply orb_true_iff. right. exact IH.
Qed.

(** X1.  [needle in hay] holds exactly when [hay] is some text, then
    [needle], then some text. *)
Theorem str_in_substring (needle hay : string) :
  str_in needle hay = true <->
  exists a b, hay = (a ++ needle ++ b)%string.
Proof. exact (str_in_iff needle hay). Qed.

(** X2.  A result of the recognizer counts as text exactly when the marker
    of an empty transcript occurs nowhere in it; in particular an answer
    without any ["text"] field (a partial result, an empty string) counts as
    text. *)
Theorem has_text_iff_no_marker (r : string) :
  has_text r = true <->
  ~ exists a b, r = (a ++ empty_text_marker ++ b)%string.
Proof.
  unfold has_text. rewrite negb_true_iff, <- str_in_iff.
  destruct (str_in empty_text_marker r); split; intros H; congruence.
Qed.

(** ** Decoding a block *)

Lemma frombuffer_int16_length (d : list byte) (samples : list Z) :
  frombuffer_int16 d = Ok samples -> length d = (2 * length samples)%nat.
Proof.
  revert samples. induction d as [| b | lo hi rest IH] using pairs_ind;
    intros samples H; simpl in H.
  - injection H as <-. reflexivity.
  - discriminate.
  - destruct (frombuffer_int16 rest) as [tl|e]; simpl in H; [|discriminate].
    injection H as <-. simpl. rewrite (IH tl eq_refl). lia.
Qed.

(** X3.  [np.frombuffer] either raises [ValueError], exactly when the block
    has an odd number of bytes, or gives one sample for every two bytes, each
    within the 16-bit signed range. *)
Theorem frombuffer_int16_cases (d : list byte) :
  (Nat.odd (length d) = true /\ frombuffer_int16 d = Raise ValueError) \/
  (Nat.odd (length d) = false /\
   exists samples,
     frombuffer_int16 d = Ok samples /\
     length d = (2 * length samples)%nat /\
     Forall (fun x => -32768 <= x <= 32767) samples).
Proof.
  destruct (Nat.odd (length d)) eqn:Hodd.
  - left. split; [reflexivity|]. apply frombuffer_int16_raises, Hodd.
  - right. split; [reflexivity|].
    destruct (frombuffer_int16 d) as [samples|e] eqn:Hd.
    + exists samples. split; [reflexivity|]. split.
      * apply frombuffer_int16_length, Hd.
      * apply frombuffer_int16_range with d, Hd.
    + exfalso.
      assert (He : e = ValueError).
      { clear Hodd. revert e Hd.
        induction d as [| b | lo hi rest IH] using pairs_ind; intros e Hd;
          simpl in Hd; try congruence.
        destruct (frombuffer_int16 rest); simpl in Hd; [discriminate|].
        injection Hd as <-. apply IH. reflexivity. }
      subst e. apply frombuffer_int16_raises in Hd. congruence.
Qed.

(** X4.  For a block that holds no sample equal to -32768, [is_speech] answers
    speech exactly when the sum of the absolute sample values exceeds 500
    times the number of samples; an empty block is silence. *)
Theorem is_speech_sum_criterion (d : frame) (samples : list Z) :
  frombuffer_int16 d = Ok samples ->
  Forall (fun x => x <> -32768) samples ->
  exists b,
    is_speech d = Ok b /\
    (b = true <-> 500 * Z.of_nat (length samples) < sumZ (map Z.abs samples)).
Proof.
  intros Hd Hne. unfold is_speech.
  rewrite (is_speech_thr_spec d samples 500 Hd Hne).
  eexists. split; [reflexivity|].
  unfold spec_amplitude_verdict.
  destruct samples as [|x l].
  - simpl. split; [discriminate|lia].
  - rewrite Qlt_bool_iff. unfold Qlt. simpl Qnum. simpl Qden.
    assert (Hlen : Z.pos (Pos.of_nat (S (length l))) = Z.of_nat (length (x :: l))).
    { simpl length. lia. }
    rewrite Hlen. simpl map. simpl sumZ. lia.
Qed.

Lemma is_speech_sum_criterion_witness :
  exists b,
    is_speech (loud x01) = Ok b /\
    (b = true <-> 500 * Z.of_nat (length [4097]) < sumZ (map Z.abs [4097])).
Proof.
  apply (is_speech_sum_criterion (loud x01) [4097]).
  - reflexivity.
  - repeat constructor. lia.
Defined.

(** ** The wave files *)

(** X5.  With fuel beyond the length of the source, the copy loop of
    [append_wave] returns the whole source whatever the positive chunk size,
    and nothing when the chunk size is zero (the first read is then empty). *)
Theorem copy_frames_result (fuel chunk : nat) (src : list byte) :
  (length src < fuel)%nat ->
  copy_frames fuel chunk src = match chunk with O => [] | S _ => src end.
Proof.
  intros Hfuel. destruct chunk as [|c].
  - destruct fuel; reflexivity.
  - apply copy_frames_all; [lia|exact Hfuel].
Qed.

Lemma copy_frames_result_witness :
  copy_frames 5 3 [x01; x02; x03; x04] = [x01; x02; x03; x04].
Proof. apply (copy_frames_result 5 3 [x01; x02; x03; x04]). simpl. lia. Defined.

Lemma data_fits_shorter (d d' : list byte) :
  (length d' <= length d)%nat -> data_fits d = true -> data_fits d' = true.
Proof. unfold data_fits. rewrite !Z.leb_le. lia. Qed.

Section Files.
Context `{os : OS}.

(** X6.  When the path of the temporary file opens to a file that does not
    exist, [append_wave] raises [FileNotFoundError].  When it opens to a file
    with at least one channel, a sample width of 1 to 4 bytes, a positive
    rate, parameters and a data length that fit a wave header, and the
    destination path opens to another file, in which the system has room for
    the frames, the destination becomes a copy of the temporary file: its
    parameters and frames, nothing of what the destination held; every other
    file is as it was. *)
Theorem append_wave_copies (fs : gmap string wav) (temp final t : string) :
  open_path temp = Some t ->
  (fs !! t = None -> append_wave fs temp final = Raise FileNotFoundError) /\
  (forall w f,
      fs !! t = Some w ->
      open_path final = Some f ->
      t <> f ->
      1 <= nchannels w -> 1 <= sampwidth w <= 4 -> 0 < framerate w ->
      header_fits w = true ->
      data_fits (wav_frames w) = true ->
      has_room f (wav_frames w) = true ->
      append_wave fs temp final = Ok (<[f := w]> fs)).
Proof.
  intros Htemp. split.
  - intros Hnone. unfold append_wave. rewrite Htemp, Hnone. reflexivity.
  - intros w f Hw Hfinal Hne Hch Hsw Hrate Hhead Hfits Hroom. unfold append_wave.
    rewrite Htemp, Hw.
    destruct (Z.ltb_spec (nchannels w) 1) as [Hlt|_]; [lia|].
    destruct (Z.ltb_spec (sampwidth w) 1) as [Hlt|_]; [lia|].
    cbv [orb]. rewrite Hfinal.
    destruct (Z.ltb_spec 4 (sampwidth w)) as [Hlt|_]; [lia|].
    destruct (Z.leb_spec (framerate w) 0) as [Hle|_]; [lia|].
    cbv [orb].
    destruct (String.eqb_spec t f) as [Heq|_]; [congruence|].
    cbv zeta.
    rewrite copy_frames_all by nia.
    change (header_fits {| nchannels := nchannels w; sampwidth := sampwidth w;
                           framerate := framerate w; wav_frames := [] |})
      with (header_fits w).
    rewrite Hhead, Hroom, Hfits. cbn [negb].
    rewrite insert_insert_eq.
    destruct w; reflexivity.
Qed.

(** The two calls by which test2.py stores a recording, when they can
    succeed. *)
Lemma test2_store_files (fs : gmap string wav) filename samplerate audio f t :
  0 < samplerate <= 2147483647 ->
  data_fits (join_bytes audio) = true ->
  open_path filename = Some f ->
  open_path Test2.temp_filename = Some t ->
  f <> t ->
  has_room t (join_bytes audio) = true ->
  has_room f (join_bytes audio) = true ->
  exists fs',
    do_calls fs (Test2.store filename samplerate audio) = Ok fs' /\
    fs' !! f =
      Some {| nchannels := 1; sampwidth := 2; framerate := samplerate;
              wav_frames := join_bytes audio |} /\
    fs' !! t = fs' !! f /\
    (forall g, g <> f -> g <> t -> fs' !! g = fs !! g).
Proof.
  intros Hrate Hfits Hf Ht Hne Hroomt Hroomf.
  unfold Test2.store. cbn [do_calls do_call rbind]. unfold write_wave.
  rewrite Ht. destruct (Z.leb_spec samplerate 0) as [Hle|_]; [lia|].
  cbv zeta. cbn [wav_frames].
  rewrite (header_fits_mono16 _ _ Hrate), Hfits, Hroomt. cbn [negb andb rbind].
  erewrite (append_wave_replaces _ _ _ t f);
    [| exact Ht | exact Hf | congruence | apply lookup_insert_eq
     | reflexivity | reflexivity | exact Hrate | exact Hfits | exact Hroomf ].
  eexists. split; [reflexivity|]. split; [apply lookup_insert_eq|]. split.
  - rewrite lookup_insert_eq, lookup_insert_ne by congruence.
    apply lookup_insert_eq.
  - intros g Hg Hgt. rewrite !lookup_insert_ne by congruence. reflexivity.
Qed.

(** X7.  In test2.py, when the sample rate is positive and, like the size of
    the segment, fits a wave header, and the system opens the destination and
    the temporary path as two different files with room for the segment, the
    two calls that store a recording succeed on any file system: afterwards
    the destination and the temporary file both hold the segment (mono,
    16-bit, at the capture rate, the blocks joined in order) and every other
    file is as it was. *)
Theorem test2_store_effect (fs : gmap string wav) filename samplerate audio f t :
  0 < samplerate <= 2147483647 ->
  data_fits (join_bytes audio) = true ->
  open_path filename = Some f ->
  open_path Test2.temp_filename = Some t ->
  f <> t ->
  has_room t (join_bytes audio) = true ->
  has_room f (join_bytes audio) = true ->
  exists fs',
    do_calls fs (Test2.store filename samplerate audio) = Ok fs' /\
    fs' !! f =
      Some {| nchannels := 1; sampwidth := 2; framerate := samplerate;
              wav_frames := join_bytes audio |} /\
    fs' !! t = fs' !! f /\
    (forall g, g <> f -> g <> t -> fs' !! g = fs !! g).
Proof. exact (test2_store_files fs filename samplerate audio f t). Qed.

Lemma join_bytes_snoc (audio : list frame) (d : frame) :
  length (join_bytes (audio ++ [d])) = (length (join_bytes audio) + length d)%nat.
Proof.
  unfold join_bytes. rewrite concat_app, length_app. simpl.
  rewrite app_nil_r. reflexivity.
Qed.

(** What a run of test2.py asks of the sink after the header: nothing, or
    the two calls that store a segment, which holds no more than the segment
    at the start and the blocks received. *)
Lemma test2_run_calls filename samplerate silence blocks : forall st,
  snd (Test2.run filename samplerate silence st blocks) = [] \/
  exists audio,
    snd (Test2.run filename samplerate silence st blocks)
    = Test2.store filename samplerate audio /\
    (length (join_bytes audio)
     <= length (join_bytes (Test2.audio_data st))
        + length (join_bytes (map data blocks)))%nat.
Proof.
  induction blocks as [|blk rest IH]; intros st.
  - simpl. destruct (Test2.recording st); simpl; [right|left; reflexivity].
    eexists. split; [reflexivity|]. lia.
  - assert (Hcons : length (join_bytes (map data (blk :: rest)))
                    = (length (data blk) + length (join_bytes (map data rest)))%nat).
    { unfold join_bytes. simpl. apply length_app. }
    simpl Test2.run.
    destruct (Test2.loop_body filename samplerate silence st blk)
      as [st1|st1 calls] eqn:Hbody.
    + assert (Hgrow : (length (join_bytes (Test2.audio_data st1))
                       <= length (join_bytes (Test2.audio_data st))
                          + length (data blk))%nat).
      { unfold Test2.loop_body in Hbody.
        repeat match type of Hbody with
               | (if ?c then _ else _) = _ => destruct c
               | match ?o with Some _ => _ | None => _ end = _ => destruct o
               end; try discriminate; injection Hbody as <-; simpl;
          rewrite ?join_bytes_snoc; lia. }
      destruct (IH st1) as [Hnil | (audio & Hcalls & Hlen)]; [left; exact Hnil|].
      right. exists audio. split; [exact Hcalls|]. lia.
    + right. simpl. unfold Test2.loop_body in Hbody.
      repeat match type of Hbody with
             | (if ?c then _ else _) = _ => destruct c
             | match ?o with Some _ => _ | None => _ end = _ => destruct o
             end; try discriminate.
      injection Hbody as _ <-. eexists. split; [reflexivity|]. lia.
Qed.

Lemma create_wave_header_ok (fs : gmap string wav) samplerate t :
  0 < samplerate <= 2147483647 ->
  open_path Test2.temp_filename = Some t ->
  has_room t [] = true ->
  create_wave_header fs Test2.temp_filename samplerate =
    Ok (<[t := {| nchannels := 1; sampwidth := 2; framerate := samplerate;
                  wav_frames := [] |}]> fs).
Proof.
  intros Hrate Ht Hroom. unfold create_wave_header. rewrite Ht.
  destruct (Z.leb_spec samplerate 0) as [Hle|_]; [lia|].
  cbv zeta. rewrite (header_fits_mono16 _ _ Hrate), Hroom. reflexivity.
Qed.

(** X8.  When the sample rate is positive and, like the total size of the
    blocks, fits a wave header, and the system opens the destination and the
    temporary path as two different files with room for what is written, the
    sink calls of a run of test2.py succeed whatever the blocks and however
    the run ends; afterwards the temporary file exists at the capture rate
    (even when nothing was recorded), the destination either is as it was or
    is a copy of the temporary file, and no other file has changed. *)
Theorem test2_main_files (fs : gmap string wav)
    filename samplerate silence blocks f t :
  0 < samplerate <= 2147483647 ->
  data_fits (join_bytes (map data blocks)) = true ->
  open_path filename = Some f ->
  open_path Test2.temp_filename = Some t ->
  f <> t ->
  (forall d, has_room t d = true) ->
  (forall d, has_room f d = true) ->
  exists fs' w,
    do_calls fs (snd (Test2.main filename samplerate silence blocks)) = Ok fs' /\
    fs' !! t = Some w /\
    framerate w = samplerate /\
    (fs' !! f = fs !! f \/ fs' !! f = Some w) /\
    (forall g, g <> f -> g <> t -> fs' !! g = fs !! g).
Proof.
  intros Hrate Hfits Hf Ht Hne Hroomt Hroomf. unfold Test2.main. simpl snd.
  cbn [do_calls do_call rbind].
  rewrite (create_wave_header_ok fs samplerate t Hrate Ht (Hroomt [])).
  cbn [rbind].
  destruct (test2_run_calls filename samplerate silence blocks Test2.init)
    as [Hcalls | (audio & Hcalls & Hlen)]; rewrite Hcalls.
  - simpl. eexists. eexists.
    split; [reflexivity|]. split; [apply lookup_insert_eq|].
    split; [reflexivity|]. split.
    + left. apply lookup_insert_ne. congruence.
    + intros g Hg Hgt. apply lookup_insert_ne. congruence.
  - assert (Hfits' : data_fits (join_bytes audio) = true).
    { apply (data_fits_shorter (join_bytes (map data blocks))); [|exact Hfits].
      simpl in Hlen. exact Hlen. }
    destruct (test2_store_files
                (<[t := {| nchannels := 1; sampwidth := 2;
                           framerate := samplerate; wav_frames := [] |}]> fs)
                filename samplerate audio f t Hrate Hfits' Hf Ht Hne
                (Hroomt _) (Hroomf _))
      as (fs' & Hok & Hfile & Htemp & Hrest).
    exists fs'. eexists. split; [exact Hok|].
    split; [rewrite Htemp; exact Hfile|]. split; [reflexivity|]. split.
    + right. exact Hfile.
    + intros g Hg Hgt. rewrite (Hrest g Hg Hgt).
      apply lookup_insert_ne. congruence.
Qed.
End Files.

Lemma append_wave_copies_witness :
  append_wave {[ "temp_output.wav" := old_wav 16000 ]} "temp_output.wav" "output.wav"
  = Ok (<[ "output.wav" := old_wav 16000 ]> {[ "temp_output.wav" := old_wav 16000 ]}).
Proof.
  apply (proj2 (append_wave_copies (os:=example_os)
                  {[ "temp_output.wav" := old_wav 16000 ]}
                  "temp_output.wav" "output.wav" "temp_output.wav" eq_refl)
           (old_wav 16000) "output.wav").
  - reflexivity.
  - reflexivity.
  - discriminate.
  - simpl. lia.
  - simpl. lia.
  - simpl. lia.
  - reflexivity.
  - reflexivity.
  - reflexivity.
Defined.

Lemma test2_store_effect_witness :
  exists fs',
    do_calls {[ "output.wav" := old_wav 44100 ]}
      (Test2.store "output.wav" 16000 [loud x01]) = Ok fs' /\
    fs' !! "output.wav" =
      Some {| nchannels := 1; sampwidth := 2; framerate := 16000;
              wav_frames := join_bytes [loud x01] |} /\
    fs' !! "temp_output.wav" = fs' !! "output.wav" /\
    (forall g, g <> "output.wav" -> g <> "temp_output.wav" ->
               fs' !! g = ({[ "output.wav" := old_wav 44100 ]} : gmap string wav) !! g).
Proof.
  apply (test2_store_effect (os:=example_os) {[ "output.wav" := old_wav 44100 ]}
           "output.wav" 16000 [loud x01] "output.wav" "temp_output.wav").
  - lia.
  - reflexivity.
  - reflexivity.
  - reflexivity.
  - discriminate.
  - reflexivity.
  - reflexivity.
Defined.

Lemma test2_main_files_witness :
  exists fs' w,
    do_calls {[ "output.wav" := old_wav 44100 ]}
      (snd (Test2.main "output.wav" 16000 2 transcript_blocks)) = Ok fs' /\
    fs' !! "temp_output.wav" = Some w /\
    framerate w = 16000 /\
    (fs' !! "output.wav"
       = ({[ "output.wav" := old_wav 44100 ]} : gmap string wav) !! "output.wav"
     \/ fs' !! "output.wav" = Some w) /\
    (forall g, g <> "output.wav" -> g <> "temp_output.wav" ->
               fs' !! g = ({[ "output.wav" := old_wav 44100 ]} : gmap string wav) !! g).
Proof.
  apply (test2_main_files (os:=example_os) {[ "output.wav" := old_wav 44100 ]}
           "output.wav" 16000 2 transcript_blocks "output.wav" "temp_output.wav").
  - lia.
  - reflexivity.
  - reflexivity.
  - reflexivity.
  - discriminate.
  - reflexivity.
  - reflexivity.
Defined.

(** ** What the loops store *)

Lemma test_recording_kept filename samplerate blocks : forall st st',
  Test.steps filename samplerate st blocks = Some st' ->
  Test.recording st = true -> Test.recording st' = true.
Proof.
  induction blocks as [|blk rest IH]; intros st st' Hsteps Hrec; simpl in Hsteps.
  - injection Hsteps as <-. exact Hrec.
  - destruct (Test.loop_body filename samplerate st blk) as [st1|] eqn:Hbody;
      [|discriminate].
    apply (IH st1 st' Hsteps).
    unfold Test.loop_body in Hbody. rewrite Hrec in Hbody.
    repeat match type of Hbody with
           | (if ?c then _ else _) = _ => destruct c
           | match ?o with Some _ => _ | None => _ end = _ => destruct o
           end; try discriminate; injection Hbody as <-; auto.
Qed.

Lemma test2_recording_kept filename samplerate silence blocks : forall st st',
  Test2.steps filename samplerate silence st blocks = Some st' ->
  Test2.recording st = true -> Test2.recording st' = true.
Proof.
  induction blocks as [|blk rest IH]; intros st st' Hsteps Hrec; simpl in Hsteps.
  - injection Hsteps as <-. exact Hrec.
  - destruct (Test2.loop_body filename samplerate silence st blk) as [st1|] eqn:Hbody;
      [|discriminate].
    apply (IH st1 st' Hsteps).
    unfold Test2.loop_body in Hbody. rewrite Hrec in Hbody.
    repeat match type of Hbody with
           | (if ?c then _ else _) = _ => destruct c
           | match ?o with Some _ => _ | None => _ end = _ => destruct o
           end; try discriminate; injection Hbody as <-; auto.
Qed.

Lemma feed_recognizer_recording st blk :
  Testson.recording st = true ->
  Testson.feed_recognizer st blk = st.
Proof.
  intros Hrec. unfold Testson.feed_recognizer. rewrite Hrec.
  destruct (accept (answer blk)); [|reflexivity].
  destruct (has_text _); reflexivity.
Qed.

(** One iteration of testson.py in a recording: if the loop goes on, it is
    still recording and the block has been appended to the segment. *)
Lemma testson_recording_step filename samplerate st blk st' :
  Testson.recording st = true ->
  Testson.loop_body filename samplerate st blk = Testson.Continue st' ->
  Testson.recording st' = true /\
  Testson.audio_data st' = Testson.audio_data st ++ [data blk].
Proof.
  intros Hrec Hbody. unfold Testson.loop_body in Hbody. rewrite Hrec in Hbody.
  destruct (is_speech (data blk)) as [[|]|e]; [| |discriminate].
  - rewrite feed_recognizer_recording in Hbody by reflexivity.
    injection Hbody as <-. split; reflexivity.
  - destruct (Testson.silence_start st) as [s|];
      match type of Hbody with
      | (if ?c then _ else _) = _ => destruct c
      end;
      try (destruct (Testson.last_voice_activity st); discriminate);
      rewrite feed_recognizer_recording in Hbody by reflexivity;
      injection Hbody as <-; split; reflexivity.
Qed.

Lemma testson_recording_steps filename samplerate blocks :
  forall st st',
    Testson.steps filename samplerate st blocks = Some st' ->
    Testson.recording st = true ->
    Testson.recording st' = true /\
    Testson.audio_data st' = Testson.audio_data st ++ map data blocks.
Proof.
  induction blocks as [|blk rest IH]; intros st st' Hsteps Hrec; simpl in Hsteps.
  - injection Hsteps as <-. rewrite app_nil_r. split; [exact Hrec|reflexivity].
  - destruct (Testson.loop_body filename samplerate st blk) as [st1| |] eqn:Hbody;
      try discriminate.
    destruct (testson_recording_step _ _ _ _ _ Hrec Hbody) as [Hrec1 Haudio1].
    destruct (IH st1 st' Hsteps Hrec1) as [Hrec' Haudio'].
    split; [exact Hrec'|].
    rewrite Haudio', Haudio1, <- app_assoc. reflexivity.
Qed.

(** X9.  In testson.py, from a recording on and as long as the loop goes on,
    the loop stays recording and the segment grows by exactly the blocks
    received, in their order of arrival: none is dropped, repeated or
    reordered. *)
Theorem testson_recording_stores_every_block filename samplerate blocks :
  forall st st',
    Testson.steps filename samplerate st blocks = Some st' ->
    Testson.recording st = true ->
    Testson.recording st' = true /\
    Testson.audio_data st' = Testson.audio_data st ++ map data blocks.
Proof. exact (testson_recording_steps filename samplerate blocks). Qed.

Lemma testson_recording_stores_every_block_witness :
  Testson.audio_data
    {| Testson.recording := true;
       Testson.audio_data := [loud x01; loud x01; quiet x11; loud x04];
       Testson.silence_start := None;
       Testson.last_voice_activity := Some 3%Q;
       Testson.pre_speech_buffer := [loud x01] |}
  = [loud x01; loud x01] ++
    map data [at_time (5#2) (quiet x11) pending; at_time 3 (loud x04) pending].
Proof.
  exact (proj2 (testson_recording_stores_every_block "output.wav" 16000
                  [at_time (5#2) (quiet x11) pending; at_time 3 (loud x04) pending]
                  {| Testson.recording := true;
                     Testson.audio_data := [loud x01; loud x01];
                     Testson.silence_start := None;
                     Testson.last_voice_activity := Some 2%Q;
                     Testson.pre_speech_buffer := [loud x01] |}
                  _ eq_refl eq_refl)).
Defined.

(** One iteration of test.py in a recording: if the loop goes on, the block
    has been appended to the segment unless the recognizer completed an empty
    transcript on it, in which case the block is not stored. *)
Lemma test_recording_step filename samplerate st blk st' :
  Test.recording st = true ->
  Test.loop_body filename samplerate st blk = Test.Continue st' ->
  Test.audio_data st' =
    Test.audio_data st ++
    (if accept (answer blk) && negb (has_text (rec_result (answer blk)))
     then [] else [data blk]).
Proof.
  intros Hrec Hbody. unfold Test.loop_body in Hbody. rewrite Hrec in Hbody.
  destruct (accept (answer blk)); simpl.
  - destruct (has_text _); simpl.
    + injection Hbody as <-. reflexivity.
    + rewrite app_nil_r.
      destruct (Test.silence_timer st) as [t|].
      * destruct (float_truthy t && Qlt_bool t (clock1 blk)); [discriminate|].
        injection Hbody as <-. reflexivity.
      * injection Hbody as <-. reflexivity.
  - injection Hbody as <-. reflexivity.
Qed.

(** X10.  In test.py, from a recording on and as long as the loop goes on,
    the segment grows by the blocks received, in order, except those on which
    the recognizer completed an empty transcript: these blocks are never
    stored. *)
Theorem test_recording_skips_empty_transcripts filename samplerate blocks :
  forall st st',
    Test.steps filename samplerate st blocks = Some st' ->
    Test.recording st = true ->
    Test.audio_data st' =
      Test.audio_data st ++
      map data
        (List.filter
           (fun b => negb (accept (answer b) && negb (has_text (rec_result (answer b)))))
           blocks).
Proof.
  induction blocks as [|blk rest IH]; intros st st' Hsteps Hrec; simpl in Hsteps.
  - injection Hsteps as <-. simpl. rewrite app_nil_r. reflexivity.
  - destruct (Test.loop_body filename samplerate st blk) as [st1|] eqn:Hbody;
      [|discriminate].
    assert (Hrec1 : Test.recording st1 = true).
    { apply (test_recording_kept filename samplerate [blk] st st1); [|exact Hrec].
      simpl. rewrite Hbody. reflexivity. }
    rewrite (IH st1 st' Hsteps Hrec1).
    rewrite (test_recording_step _ _ _ _ _ Hrec Hbody).
    simpl List.filter.
    destruct (accept (answer blk) && negb (has_text (rec_result (answer blk))));
      simpl; rewrite <- app_assoc; reflexivity.
Qed.

Lemma test_recording_skips_empty_transcripts_witness :
  Test.audio_data
    {| Test.recording := true; Test.audio_data := [loud x01; quiet x02];
       Test.silence_timer := Some (1 + 2)%Q |}
  = [loud x01] ++
    map data
      (List.filter
         (fun b => negb (accept (answer b) && negb (has_text (rec_result (answer b)))))
         [at_time 1 (quiet x01) transcript_empty; at_time 2 (quiet x02) pending]).
Proof.
  exact (test_recording_skips_empty_transcripts "output.wav" 16000
           [at_time 1 (quiet x01) transcript_empty; at_time 2 (quiet x02) pending]
           {| Test.recording := true; Test.audio_data := [loud x01];
              Test.silence_timer := None |}
           _ eq_refl eq_refl).
Defined.

(** ** The pre-speech buffer as a window on the last blocks *)

Lemma skipn_window {A} (N : nat) (x y : list A) :
  skipn (length (skipn (length x - N) x ++ y) - N) (skipn (length x - N) x ++ y)
  = skipn (length (x ++ y) - N) (x ++ y).
Proof.
  rewrite !length_app, length_skipn.
  destruct (Nat.le_gt_cases N (length x)) as [Hle|Hgt].
  - replace (length x - (length x - N) + length y - N)%nat with (length y) by lia.
    replace (length x + length y - N)%nat
      with (length y + (length x - N))%nat by lia.
    rewrite <- skipn_skipn. f_equal.
    rewrite skipn_app.
    replace (length x - N - length x)%nat with 0%nat by lia. reflexivity.
  - replace (length x - N)%nat with 0%nat by lia. simpl.
    rewrite Nat.sub_0_r. reflexivity.
Qed.

Lemma feed_buffer_window samplerate st d :
  0 <= Testson.capacity samplerate ->
  Testson.recording st = false ->
  Z.of_nat (length (Testson.pre_speech_buffer st)) <= Testson.capacity samplerate ->
  Testson.feed_buffer samplerate st d =
    skipn (length (Testson.pre_speech_buffer st ++ [d])
           - Z.to_nat (Testson.capacity samplerate))
          (Testson.pre_speech_buffer st ++ [d]).
Proof.
  intros Hcap Hidle Hlen. rewrite feed_buffer_idle by exact Hidle.
  rewrite length_app. simpl length.
  destruct (Z.ltb_spec (Testson.capacity samplerate)
              (Z.of_nat (length (Testson.pre_speech_buffer st)) + 1)) as [Hlt|Hge].
  - replace (length (Testson.pre_speech_buffer st) + 1
             - Z.to_nat (Testson.capacity samplerate))%nat with 1%nat by lia.
    reflexivity.
  - replace (length (Testson.pre_speech_buffer st) + 1
             - Z.to_nat (Testson.capacity samplerate))%nat with 0%nat by lia.
    reflexivity.
Qed.

Lemma testson_idle_before filename samplerate st blk st' :
  Testson.loop_body filename samplerate st blk = Testson.Continue st' ->
  Testson.recording st' = false -> Testson.recording st = false.
Proof.
  intros Hbody Hidle. destruct (Testson.recording st) eqn:Hrec; [|reflexivity].
  destruct (testson_recording_step _ _ _ _ _ Hrec Hbody) as [Hrec' _]. congruence.
Qed.

Lemma testson_idle_window filename samplerate blocks : forall st st',
  0 <= Testson.capacity samplerate ->
  Z.of_nat (length (Testson.pre_speech_buffer st)) <= Testson.capacity samplerate ->
  Testson.steps filename samplerate st blocks = Some st' ->
  Testson.recording st' = false ->
  Testson.pre_speech_buffer st' =
    skipn (length (Testson.pre_speech_buffer st ++ map data blocks)
           - Z.to_nat (Testson.capacity samplerate))
          (Testson.pre_speech_buffer st ++ map data blocks).
Proof.
  induction blocks as [|blk rest IH]; intros st st' Hcap Hlen Hsteps Hidle;
    simpl in Hsteps.
  - injection Hsteps as <-. simpl. rewrite app_nil_r.
    replace (length (Testson.pre_speech_buffer st)
             - Z.to_nat (Testson.capacity samplerate))%nat with 0%nat by lia.
    reflexivity.
  - destruct (Testson.loop_body filename samplerate st blk) as [st1| |] eqn:Hbody;
      try discriminate.
    assert (Hidle1 : Testson.recording st1 = false).
    { destruct (Testson.recording st1) eqn:Hrec1; [|reflexivity].
      destruct (testson_recording_steps _ _ _ _ _ Hsteps Hrec1).
      congruence. }
    pose proof (testson_idle_before _ _ _ _ _ Hbody Hidle1) as Hidle0.
    pose proof (loop_body_buffer _ _ _ _ _ Hbody) as Hbuf.
    rewrite (IH st1 st' Hcap) ; [| | exact Hsteps | exact Hidle].
    + rewrite Hbuf, (feed_buffer_window _ _ _ Hcap Hidle0 Hlen).
      rewrite skipn_window. simpl map.
      rewrite <- app_assoc. reflexivity.
    + rewrite Hbuf. apply feed_buffer_length, Hlen.
Qed.

(** X11.  In testson.py, as long as no recording has started, the pre-speech
    buffer is exactly the last [N] blocks received, [N] being
    [samplerate // 8000] (all of them when fewer than [N] have arrived). *)
Theorem testson_buffer_is_last_blocks filename samplerate blocks st :
  0 <= samplerate ->
  Testson.steps filename samplerate Testson.init blocks = Some st ->
  Testson.recording st = false ->
  Testson.pre_speech_buffer st =
    skipn (length blocks - Z.to_nat (samplerate / 8000)) (map data blocks).
Proof.
  intros Hrate Hsteps Hidle.
  pose proof (capacity_nonneg samplerate Hrate) as Hcap.
  rewrite (testson_idle_window filename samplerate blocks Testson.init st Hcap);
    [| simpl; lia | exact Hsteps | exact Hidle].
  simpl. rewrite length_map.
  unfold Testson.capacity, Testson.buffer_duration.
  rewrite Z.mul_1_l. reflexivity.
Qed.

Lemma testson_buffer_is_last_blocks_witness :
  [quiet x02; quiet x03] =
    skipn (3 - Z.to_nat (16000 / 8000))
      (map data [at_time 0 (quiet x01) pending;
                 at_time (1#2) (quiet x02) pending;
                 at_time 1 (quiet x03) pending]).
Proof.
  exact (testson_buffer_is_last_blocks "output.wav" 16000
           [at_time 0 (quiet x01) pending;
            at_time (1#2) (quiet x02) pending;
            at_time 1 (quiet x03) pending]
           {| Testson.recording := false;
              Testson.audio_data := [];
              Testson.silence_start := None;
              Testson.last_voice_activity := None;
              Testson.pre_speech_buffer := [quiet x02; quiet x03] |}
           ltac:(lia) eq_refl eq_refl).
Defined.

(** ** How a recording ends *)

Lemma py_slice_to_prefix {A} (l : list A) (k : Z) :
  exists rest, l = py_slice_to l k ++ rest.
Proof.
  unfold py_slice_to. destruct (k <? 0); eexists; symmetry; apply firstn_skipn.
Qed.

Lemma testson_break_prefix filename samplerate st blk st' calls :
  Testson.loop_body filename samplerate st blk = Testson.Break st' calls ->
  Testson.recording st = true /\
  exists seg rest,
    calls = [WriteWave filename seg samplerate] /\
    Testson.audio_data st ++ [data blk] = seg ++ rest.
Proof.
  intros Hbody. unfold Testson.loop_body in Hbody.
  destruct (is_speech (data blk)) as [[|]|e]; try discriminate.
  destruct (Testson.recording st); [|discriminate].
  split; [reflexivity|].
  destruct (Testson.silence_start st) as [s|];
    match type of Hbody with
    | (if ?c then _ else _) = _ => destruct c
    end; try discriminate;
    destruct (Testson.last_voice_activity st) as [lv|]; try discriminate;
    injection Hbody as _ <-; unfold Testson.trim;
    match goal with
    | |- context [py_slice_to ?l ?k] =>
        destruct (py_slice_to_prefix l k) as [rest Hrest];
        exists (py_slice_to l k), rest; split; [reflexivity|exact Hrest]
    end.
Qed.

(** X12.  In testson.py, when an iteration stops the recording by silence,
    the loop was recording, the sink is called once, and the segment written
    is a prefix of the blocks recorded up to and including the current one:
    the cut of lines 112-114 only removes blocks from the end. *)
Theorem testson_stop_writes_prefix filename samplerate st blk st' calls :
  Testson.loop_body filename samplerate st blk = Testson.Break st' calls ->
  Testson.recording st = true /\
  exists seg rest,
    calls = [WriteWave filename seg samplerate] /\
    Testson.audio_data st ++ [data blk] = seg ++ rest.
Proof. exact (testson_break_prefix filename samplerate st blk st' calls). Qed.

Lemma testson_stop_writes_prefix_witness :
  exists seg rest,
    [WriteWave "output.wav" [loud x01; loud x01; quiet x11; quiet x12] 8000]
      = [WriteWave "output.wav" seg 8000] /\
    [loud x01; loud x01; quiet x11; quiet x12] ++ [quiet x13] = seg ++ rest.
Proof.
  exact (proj2 (testson_stop_writes_prefix "output.wav" 8000
                  {| Testson.recording := true;
                     Testson.audio_data := [loud x01; loud x01; quiet x11; quiet x12];
                     Testson.silence_start := Some 1%Q;
                     Testson.last_voice_activity := Some 0%Q;
                     Testson.pre_speech_buffer := [loud x01] |}
                  (at_time 5 (quiet x13) pending)
                  {| Testson.recording := false;
                     Testson.audio_data := [loud x01; loud x01; quiet x11; quiet x12];
                     Testson.silence_start := Some 1%Q;
                     Testson.last_voice_activity := Some 0%Q;
                     Testson.pre_speech_buffer := [loud x01] |}
                  [WriteWave "output.wav" [loud x01; loud x01; quiet x11; quiet x12] 8000]
                  eq_refl)).
Defined.

Lemma feed_recognizer_last_voice st blk :
  Testson.last_voice_activity (Testson.feed_recognizer st blk)
  = Testson.last_voice_activity st.
Proof.
  unfold Testson.feed_recognizer.
  destruct (accept (answer blk)); [|reflexivity].
  destruct (has_text _ && negb _); reflexivity.
Qed.

Lemma testson_no_voice_no_stop filename samplerate blocks : forall st,
  Testson.last_voice_activity st = None ->
  Forall (fun blk => is_speech (data blk) <> Ok true) blocks ->
  fst (Testson.run filename samplerate st blocks) <> ExitNormal.
Proof.
  induction blocks as [|blk rest IH]; intros st Hlv Hquiet; simpl.
  - discriminate.
  - inversion Hquiet as [|? ? Hblk Hrest]; subst.
    unfold Testson.loop_body.
    destruct (is_speech (data blk)) as [[|]|e]; [congruence| |simpl; discriminate].
    destruct (Testson.recording st).
    + destruct (Testson.silence_start st) as [s|];
        match goal with
        | |- context [if ?c then _ else _] => destruct c
        end; rewrite ?Hlv; simpl; try discriminate;
        (apply IH;
         [rewrite feed_recognizer_last_voice; simpl; first [exact Hlv|reflexivity]
         | exact Hrest]).
    + apply IH; [rewrite feed_recognizer_last_voice; exact Hlv | exact Hrest].
Qed.

(** X13.  A run of testson.py in which the amplitude detector never answers
    speech never ends by the silence path: a recording started by the
    recognizer alone is either flushed by an interruption or lost to the
    error raised at line 112, where [last_voice_activity] is still [None]. *)
Theorem testson_recognizer_recording_never_finalized filename samplerate blocks :
  Forall (fun blk => is_speech (data blk) <> Ok true) blocks ->
  fst (Testson.main filename samplerate blocks) <> ExitNormal.
Proof.
  intros Hquiet. apply testson_no_voice_no_stop; [reflexivity|exact Hquiet].
Qed.

Lemma testson_recognizer_recording_never_finalized_witness :
  fst (Testson.main "output.wav" 16000
         [ at_time 0 (quiet x01) transcript_text;
           at_time 1 (quiet x02) pending;
           at_time 5 (quiet x03) pending ]) <> ExitNormal.
Proof.
  apply (testson_recognizer_recording_never_finalized "output.wav" 16000).
  repeat constructor; vm_compute; discriminate.
Defined.

(** X14.  In testson.py, on a block judged silent during a recording whose
    silence began at [s], the loop goes on exactly when the time elapsed
    since [s] is three seconds or less. *)
Theorem testson_silence_limit filename samplerate st blk s :
  Testson.recording st = true ->
  Testson.silence_start st = Some s ->
  is_speech (data blk) = Ok false ->
  ((exists st', Testson.loop_body filename samplerate st blk = Testson.Continue st')
   <-> (clock1 blk - s <= 3)%Q).
Proof.
  intros Hrec Hstart Hquiet. split.
  - intros [st' Hbody]. unfold Testson.loop_body in Hbody.
    rewrite Hquiet, Hrec, Hstart in Hbody.
    destruct (Qlt_bool 3 (clock1 blk - s)) eqn:Hcmp.
    + destruct (Testson.last_voice_activity st); discriminate.
    + apply Qlt_bool_false_iff, Hcmp.
  - intros Hshort.
    destruct (testson_silence_continues filename samplerate st blk s
                Hrec Hstart Hquiet Hshort) as [st' [Hbody _]].
    exists st'. exact Hbody.
Qed.

Lemma testson_silence_limit_witness :
  (exists st',
      Testson.loop_body "output.wav" 16000
        {| Testson.recording := true;
           Testson.audio_data := [loud x01; loud x01; quiet x11];
           Testson.silence_start := Some (5#2);
           Testson.last_voice_activity := Some 2%Q;
           Testson.pre_speech_buffer := [loud x01] |}
        (at_time (11#2) (quiet x12) pending) = Testson.Continue st')
  <-> ((11#2) - (5#2) <= 3)%Q.
Proof.
  apply (testson_silence_limit "output.wav" 16000
           {| Testson.recording := true;
              Testson.audio_data := [loud x01; loud x01; quiet x11];
              Testson.silence_start := Some (5#2);
              Testson.last_voice_activity := Some 2%Q;
              Testson.pre_speech_buffer := [loud x01] |}
           (at_time (11#2) (quiet x12) pending) (5#2));
    reflexivity.
Defined.

(** X15.  In test.py, on a block on which the recognizer completes an empty
    transcript during a recording: with no timer set, the loop goes on with
    the timer set two seconds ahead of the clock and the segment unchanged;
    with a (non-zero) timer [t] set, the recording is stopped and the segment
    written, without the current block, exactly when the clock has passed
    [t]. *)
Theorem test_silence_timer filename samplerate st blk :
  Test.recording st = true ->
  accept (answer blk) = true ->
  has_text (rec_result (answer blk)) = false ->
  (Test.silence_timer st = None ->
   Test.loop_body filename samplerate st blk =
     Test.Continue {| Test.recording := true;
                      Test.audio_data := Test.audio_data st;
                      Test.silence_timer := Some (clock1 blk + 2)%Q |}) /\
  (forall t,
      Test.silence_timer st = Some t ->
      float_truthy t = true ->
      ((exists st',
           Test.loop_body filename samplerate st blk =
             Test.Break st' [WriteWave filename (Test.audio_data st) samplerate])
       <-> (t < clock1 blk)%Q)).
Proof.
  intros Hrec Hacc Htext. unfold Test.loop_body. rewrite Hacc, Htext, Hrec.
  split.
  - intros ->. reflexivity.
  - intros t -> ->. simpl. rewrite <- Qlt_bool_iff.
    destruct (Qlt_bool t (clock1 blk)); split.
    + reflexivity.
    + eauto.
    + intros [st' H]. discriminate.
    + discriminate.
Qed.

Lemma test_silence_timer_witness :
  (exists st',
      Test.loop_body "output.wav" 16000
        {| Test.recording := true; Test.audio_data := [loud x01];
           Test.silence_timer := Some 3%Q |}
        (at_time 4 (quiet x02) transcript_empty) =
        Test.Break st' [WriteWave "output.wav" [loud x01] 16000])
  <-> (3 < 4)%Q.
Proof.
  apply (proj2 (test_silence_timer "output.wav" 16000
                  {| Test.recording := true; Test.audio_data := [loud x01];
                     Test.silence_timer := Some 3%Q |}
                  (at_time 4 (quiet x02) transcript_empty)
                  eq_refl eq_refl eq_refl) 3%Q eq_refl eq_refl).
Defined.

(** X16.  The same for test2.py with the configured silence duration: the
    timer is set [args.silence] seconds ahead, and the recording is stored
    (temporary file, then destination) exactly when the clock has passed
    it. *)
Theorem test2_silence_timer filename samplerate silence st blk :
  Test2.recording st = true ->
  accept (answer blk) = true ->
  has_text (rec_result (answer blk)) = false ->
  (Test2.silence_timer st = None ->
   Test2.loop_body filename samplerate silence st blk =
     Test2.Continue {| Test2.recording := true;
                       Test2.audio_data := Test2.audio_data st;
                       Test2.silence_timer := Some (clock1 blk + inject_Z silence)%Q |}) /\
  (forall t,
      Test2.silence_timer st = Some t ->
      float_truthy t = true ->
      ((exists st',
           Test2.loop_body filename samplerate silence st blk =
             Test2.Break st' (Test2.store filename samplerate (Test2.audio_data st)))
       <-> (t < clock1 blk)%Q)).
Proof.
  intros Hrec Hacc Htext. unfold Test2.loop_body. rewrite Hacc, Htext, Hrec.
  split.
  - intros ->. reflexivity.
  - intros t -> ->. simpl. rewrite <- Qlt_bool_iff.
    destruct (Qlt_bool t (clock1 blk)); split.
    + reflexivity.
    + eauto.
    + intros [st' H]. discriminate.
    + discriminate.
Qed.

Lemma test2_silence_timer_witness :
  Test2.loop_body "output.wav" 16000 5
    {| Test2.recording := true; Test2.audio_data := [loud x01];
       Test2.silence_timer := None |}
    (at_time 1 (quiet x02) transcript_empty) =
  Test2.Continue {| Test2.recording := true;
                    Test2.audio_data := [loud x01];
                    Test2.silence_timer := Some (1 + inject_Z 5)%Q |}.
Proof.
  apply (proj1 (test2_silence_timer "output.wav" 16000 5
                  {| Test2.recording := true; Test2.audio_data := [loud x01];
                     Test2.silence_timer := None |}
                  (at_time 1 (quiet x02) transcript_empty)
                  eq_refl eq_refl eq_refl) eq_refl).
Defined.

(** X17.  In test.py and test2.py a block on which the recognizer has not
    completed a transcript never stops the recording, whatever the clock
    says: a run made of such blocks ends only by the interruption. *)
Theorem recognizer_pending_never_stops filename samplerate silence blocks :
  Forall (fun blk => accept (answer blk) = false) blocks ->
  (forall st, fst (Test.run filename samplerate st blocks) = ExitInterrupt) /\
  (forall st, fst (Test2.run filename samplerate silence st blocks) = ExitInterrupt).
Proof.
  induction 1 as [|blk rest Hblk _ [IH1 IH2]]; split; intros st; simpl;
    try reflexivity.
  - unfold Test.loop_body. rewrite Hblk.
    destruct (Test.recording st); apply IH1.
  - unfold Test2.loop_body. rewrite Hblk.
    destruct (Test2.recording st); apply IH2.
Qed.

Lemma recognizer_pending_never_stops_witness :
  fst (Test.run "output.wav" 16000
         {| Test.recording := true; Test.audio_data := [loud x01];
            Test.silence_timer := Some 3%Q |}
         [at_time 10 (quiet x01) pending; at_time 20 (quiet x02) pending])
  = ExitInterrupt.
Proof.
  apply (proj1 (recognizer_pending_never_stops "output.wav" 16000 2
                  [at_time 10 (quiet x01) pending; at_time 20 (quiet x02) pending]
                  ltac:(repeat constructor))).
Defined.

Lemma test2_idle_unchanged filename samplerate silence blocks : forall st st',
  Test2.steps filename samplerate silence st blocks = Some st' ->
  Test2.recording st' = false -> st' = st.
Proof.
  induction blocks as [|blk rest IH]; intros st st' Hsteps Hidle; simpl in Hsteps.
  - injection Hsteps as <-. reflexivity.
  - destruct (Test2.loop_body filename samplerate silence st blk) as [st1|] eqn:Hbody;
      [|discriminate].
    pose proof (IH st1 st' Hsteps Hidle) as ->.
    unfold Test2.loop_body in Hbody.
    destruct (Test2.recording st) eqn:Hrec.
    + assert (Test2.recording st1 = true); [|congruence].
      apply (test2_recording_kept filename samplerate silence [blk] st st1);
        [|exact Hrec].
      simpl. unfold Test2.loop_body. rewrite Hrec, Hbody. reflexivity.
    + destruct (accept (answer blk)); [|congruence].
      destruct (has_text _); injection Hbody as <-; [discriminate|reflexivity].
Qed.

(** X18.  In test2.py the segment is never reset, only appended to; still,
    whenever a run from the start takes the loop from idle to recording, the
    segment then holds the current block alone, because nothing is stored
    while idle. *)
Theorem test2_segment_starts_at_trigger filename samplerate silence blocks st blk st' :
  Test2.steps filename samplerate silence Test2.init blocks = Some st ->
  Test2.recording st = false ->
  Test2.loop_body filename samplerate silence st blk = Test2.Continue st' ->
  Test2.recording st' = true ->
  Test2.audio_data st' = [data blk].
Proof.
  intros Hsteps Hidle Hbody Hrec.
  pose proof (test2_idle_unchanged _ _ _ _ _ _ Hsteps Hidle) as ->.
  unfold Test2.loop_body in Hbody. simpl in Hbody.
  destruct (accept (answer blk)); [|injection Hbody as <-; discriminate].
  destruct (has_text _); injection Hbody as <-; [reflexivity|discriminate].
Qed.

Lemma test2_segment_starts_at_trigger_witness :
  Test2.audio_data
    {| Test2.recording := true; Test2.audio_data := [loud x01];
       Test2.silence_timer := None |} = [loud x01].
Proof.
  exact (test2_segment_starts_at_trigger "output.wav" 16000 2
           [at_time 0 (quiet x01) pending; at_time (1#2) (quiet x02) transcript_empty]
           Test2.init (at_time 1 (loud x01) transcript_text)
           {| Test2.recording := true; Test2.audio_data := [loud x01];
              Test2.silence_timer := None |}
           eq_refl eq_refl eq_refl eq_refl).
Defined.

(** X19.  In testson.py, once a second or more has passed since the last
    speech block, the cut of lines 112-114 removes exactly
    [samplerate // 8000] blocks from the end of the segment (the segment
    holding at least that many) and keeps all the blocks before them. *)
Theorem testson_trim_drops_one_second samplerate audio lv now :
  0 <= samplerate ->
  samplerate / 8000 <= Z.of_nat (length audio) ->
  (lv + 1 <= now)%Q ->
  exists dropped,
    audio = Testson.trim samplerate audio lv now ++ dropped /\
    Z.of_nat (length dropped) = samplerate / 8000.
Proof.
  intros Hrate Hlen Hnow.
  rewrite (trim_after_one_second_firstn samplerate audio lv now Hrate Hlen Hnow).
  exists (skipn (length audio - Z.to_nat (samplerate / 8000)) audio). split.
  - symmetry. apply firstn_skipn.
  - rewrite length_skipn.
    pose proof (Z.div_pos samplerate 8000 Hrate ltac:(lia)). lia.
Qed.

Lemma testson_trim_drops_one_second_witness :
  exists dropped,
    [loud x01; loud x01; quiet x11; quiet x12; quiet x13]
    = Testson.trim 16000 [loud x01; loud x01; quiet x11; quiet x12; quiet x13] 2 6
      ++ dropped /\
    Z.of_nat (length dropped) = 16000 / 8000.
Proof.
  apply (testson_trim_drops_one_second 16000
           [loud x01; loud x01; quiet x11; quiet x12; quiet x13] 2 6).
  - lia.
  - vm_compute. discriminate.
  - vm_compute. discriminate.
Defined.

(** X20.  In testson.py, whenever a run that is recording ends by the
    silence path, the one segment written is an initial part, in order, of
    the segment at the start followed by the blocks received since. *)
Theorem testson_written_is_initial_part filename samplerate blocks :
  forall st calls,
    Testson.recording st = true ->
    Testson.run filename samplerate st blocks = (ExitNormal, calls) ->
    exists seg rest n,
      calls = [WriteWave filename seg samplerate] /\
      Testson.audio_data st ++ map data (firstn n blocks) = seg ++ rest.
Proof.
  induction blocks as [|blk rest0 IH]; intros st calls Hrec Hrun; simpl in Hrun.
  - discriminate.
  - destruct (Testson.loop_body filename samplerate st blk)
      as [st1|st1 calls1|e] eqn:Hbody.
    + destruct (testson_recording_step _ _ _ _ _ Hrec Hbody) as [Hrec1 Haudio1].
      destruct (IH st1 calls Hrec1 Hrun) as (seg & rest & n & Hcalls & Hparts).
      exists seg, rest, (S n). split; [exact Hcalls|].
      simpl. rewrite <- Hparts, Haudio1, <- app_assoc. reflexivity.
    + injection Hrun as <-.
      destruct (testson_break_prefix _ _ _ _ _ _ Hbody)
        as [_ (seg & rest & Hcalls & Hparts)].
      exists seg, rest, 1%nat. split; [exact Hcalls|].
      simpl. exact Hparts.
    + discriminate.
Qed.

Lemma testson_written_is_initial_part_witness :
  exists seg rest n,
    [WriteWave "output.wav" [loud x01; loud x01; quiet x11; quiet x12] 8000]
      = [WriteWave "output.wav" seg 8000] /\
    [loud x01; loud x01; quiet x11] ++
      map data (firstn n [at_time 4 (quiet x12) pending;
                          at_time 5 (quiet x13) pending;
                          at_time 6 (quiet x14) pending])
    = seg ++ rest.
Proof.
  exact (testson_written_is_initial_part "output.wav" 8000
           [at_time 4 (quiet x12) pending;
            at_time 5 (quiet x13) pending;
            at_time 6 (quiet x14) pending]
           {| Testson.recording := true;
              Testson.audio_data := [loud x01; loud x01; quiet x11];
              Testson.silence_start := Some 1%Q;
              Testson.last_voice_activity := Some 0%Q;
              Testson.pre_speech_buffer := [loud x01] |}
           [WriteWave "output.wav" [loud x01; loud x01; quiet x11; quiet x12] 8000]
           eq_refl eq_refl).
Defined.



Lemma test2_run_steps filename samplerate silence blocks : forall st st',
  Test2.steps filename samplerate silence st blocks = Some st' ->
  Test2.run filename samplerate silence st blocks
  = Test2.on_interrupt filename samplerate st'.
Proof.
  induction blocks as [|blk rest IH]; intros st st' Hsteps; simpl in *.
  - injection Hsteps as <-. reflexivity.
  - destruct (Test2.loop_body filename samplerate silence st blk);
      try discriminate.
    apply IH, Hsteps.
Qed.

(** X22.  In test2.py, when the sample rate is positive and, like the size
    of the segment, fits a wave header, and the system opens the destination
    and the temporary path as two different files with room for what is
    written, a user interruption makes the sink calls succeed and the process
    exit with status 0; if the run is recording, the destination then holds
    exactly the blocks accumulated so far, joined in order, as mono 16-bit
    audio at the capture rate; if it is idle, the destination is as it
    was. *)
Theorem test2_interrupt_stores_segment `{os : OS} (fs : gmap string wav)
    filename samplerate silence blocks st f t :
  0 < samplerate <= 2147483647 ->
  data_fits (join_bytes (Test2.audio_data st)) = true ->
  open_path filename = Some f ->
  open_path Test2.temp_filename = Some t ->
  f <> t ->
  (forall d, has_room t d = true) ->
  (forall d, has_room f d = true) ->
  Test2.steps filename samplerate silence Test2.init blocks = Some st ->
  fst (Test2.main filename samplerate silence blocks) = ExitInterrupt /\
  exists fs',
    do_calls fs (snd (Test2.main filename samplerate silence blocks)) = Ok fs' /\
    fs' !! f =
      if Test2.recording st
      then Some {| nchannels := 1; sampwidth := 2; framerate := samplerate;
                   wav_frames := join_bytes (Test2.audio_data st) |}
      else fs !! f.
Proof.
  intros Hrate Hfits Hf Ht Hne Hroomt Hroomf Hsteps. unfold Test2.main.
  rewrite (test2_run_steps _ _ _ _ _ _ Hsteps). unfold Test2.on_interrupt.
  split; [reflexivity|]. simpl snd. cbn [do_calls do_call rbind].
  rewrite (create_wave_header_ok fs samplerate t Hrate Ht (Hroomt [])).
  cbn [rbind].
  destruct (Test2.recording st).
  - destruct (test2_store_files
                (<[t := {| nchannels := 1; sampwidth := 2;
                           framerate := samplerate; wav_frames := [] |}]> fs)
                filename samplerate (Test2.audio_data st) f t Hrate Hfits Hf Ht Hne
                (Hroomt _) (Hroomf _))
      as (fs' & Hok & Hfile & _).
    exists fs'. split; [exact Hok|exact Hfile].
  - simpl. eexists. split; [reflexivity|].
    apply lookup_insert_ne. congruence.
Qed.

Lemma test2_interrupt_stores_segment_witness :
  fst (Test2.main "output.wav" 16000 2
         [at_time 0 (loud x01) transcript_text; at_time 1 (quiet x01) pending])
    = ExitInterrupt /\
  exists fs',
    do_calls {[ "output.wav" := old_wav 44100 ]}
      (snd (Test2.main "output.wav" 16000 2
              [at_time 0 (loud x01) transcript_text; at_time 1 (quiet x01) pending]))
      = Ok fs' /\
    fs' !! "output.wav" =
      Some {| nchannels := 1; sampwidth := 2; framerate := 16000;
              wav_frames := join_bytes [loud x01; quiet x01] |}.
Proof.
  exact (test2_interrupt_stores_segment (os:=example_os)
           {[ "output.wav" := old_wav 44100 ]}
           "output.wav" 16000 2
           [at_time 0 (loud x01) transcript_text; at_time 1 (quiet x01) pending]
           {| Test2.recording := true; Test2.audio_data := [loud x01; quiet x01];
              Test2.silence_timer := None |}
           "output.wav" "temp_output.wav"
           ltac:(lia) eq_refl eq_refl eq_refl ltac:(discriminate)
           (fun _ => eq_refl) (fun _ => eq_refl) eq_refl).
Defined.

(** ** The segment at the start of a recording *)



